(** * Cat facial-landmark pipeline: pain-score classifiers and NME metric

    A shallow embedding of the numeric core of the repository:
    - [pain_scores.py]: the [eyes], [ears] and [muzzle] classifiers and
      [calculate_pain_score];
    - [inference.py], [validate_on_val_set.py], [analyze_results.py]: the
      three per-image NME computations and the IQR outlier rule.

    Numbers.  Every landmark array of the repository is a [float32] array:
    the predictor returns the single-precision output of the network and
    the labels are loaded with [dtype=np.float32].

    The classifiers of [pain_scores.py] turn rounded quotients and angles
    into scores through threshold ladders, so they are modelled on the
    bit-exact single-precision operations of [SpecFloat] ([Module
    Binary32]): subtraction, product, sum, square root and quotient each
    round to nearest even, as NumPy's scalar and array arithmetic does.

    The NME computations are modelled by [npfloat]: a real number or one of
    the IEEE special values [PInf], [NInf], [NaN].  Finite arithmetic is
    exact there (rounding, overflow and the sign of zero are abstracted
    away); the special values follow IEEE 754 as NumPy implements it: a
    division by zero or an arccosine outside [-1, 1] produces a value and a
    warning, never a Python exception. *)

From Stdlib Require Import Reals Lra Lia List ZArith Bool String SpecFloat.
Import ListNotations.

Open Scope R_scope.

(** ** NumPy scalars *)

Inductive npfloat : Type :=
| Fin (r : R)
| PInf
| NInf
| NaN.

Definition Rltb (x y : R) : bool := if Rlt_dec x y then true else false.
Definition Rleb (x y : R) : bool := if Rle_dec x y then true else false.
Definition Reqb (x y : R) : bool := if Req_dec_T x y then true else false.

Module NP.

Definition opp (a : npfloat) : npfloat :=
  match a with
  | Fin x => Fin (- x)
  | PInf => NInf
  | NInf => PInf
  | NaN => NaN
  end.

Definition add (a b : npfloat) : npfloat :=
  match a, b with
  | NaN, _ | _, NaN => NaN
  | Fin x, Fin y => Fin (x + y)
  | PInf, NInf | NInf, PInf => NaN
  | PInf, _ | _, PInf => PInf
  | NInf, _ | _, NInf => NInf
  end.

Definition sub (a b : npfloat) : npfloat := add a (opp b).

(** The sign of an infinite product or quotient; a zero factor gives NaN. *)
Definition signed_inf (positive : bool) : npfloat :=
  if positive then PInf else NInf.

Definition inf_times (positive : bool) (y : R) : npfloat :=
  if Reqb y 0 then NaN
  else signed_inf (if Rltb 0 y then positive else negb positive).

Definition mul (a b : npfloat) : npfloat :=
  match a, b with
  | NaN, _ | _, NaN => NaN
  | Fin x, Fin y => Fin (x * y)
  | PInf, Fin y | Fin y, PInf => inf_times true y
  | NInf, Fin y | Fin y, NInf => inf_times false y
  | PInf, PInf | NInf, NInf => PInf
  | PInf, NInf | NInf, PInf => NInf
  end.

(** [x / 0] is [inf] with the sign of [x], [0 / 0] is [nan]; the zero
    divisors of this program are norms and are positive zeros. *)
Definition div (a b : npfloat) : npfloat :=
  match a, b with
  | NaN, _ | _, NaN => NaN
  | Fin x, Fin y =>
      if Reqb y 0 then
        if Reqb x 0 then NaN else signed_inf (Rltb 0 x)
      else Fin (x / y)
  | Fin _, (PInf | NInf) => Fin 0
  | PInf, Fin y => signed_inf (Rleb 0 y)
  | NInf, Fin y => signed_inf (negb (Rleb 0 y))
  | (PInf | NInf), (PInf | NInf) => NaN
  end.

Definition sqrt (a : npfloat) : npfloat :=
  match a with
  | Fin x => if Rltb x 0 then NaN else Fin (R_sqrt.sqrt x)
  | PInf => PInf
  | NInf | NaN => NaN
  end.

(** [np.arccos]: NaN (with a warning) outside [-1, 1]. *)
Definition arccos (a : npfloat) : npfloat :=
  match a with
  | Fin x => if Rleb (-1) x && Rleb x 1 then Fin (acos x) else NaN
  | _ => NaN
  end.

(** [np.degrees]: multiplication by 180/pi. *)
Definition degrees (a : npfloat) : npfloat := mul a (Fin (180 / PI)).

(** Comparisons: every comparison with NaN is false. *)
Definition ltb (a b : npfloat) : bool :=
  match a, b with
  | NaN, _ | _, NaN => false
  | Fin x, Fin y => Rltb x y
  | NInf, (Fin _ | PInf) => true
  | Fin _, PInf => true
  | _, _ => false
  end.

Definition leb (a b : npfloat) : bool :=
  match a, b with
  | NaN, _ | _, NaN => false
  | Fin x, Fin y => Rleb x y
  | NInf, _ => true
  | _, PInf => true
  | _, _ => false
  end.

Definition gtb (a b : npfloat) : bool := ltb b a.
Definition geb (a b : npfloat) : bool := leb b a.

End NP.

Declare Scope np_scope.
Delimit Scope np_scope with np.
Bind Scope np_scope with npfloat.
Infix "+" := NP.add : np_scope.
Infix "-" := NP.sub : np_scope.
Infix "*" := NP.mul : np_scope.
Infix "/" := NP.div : np_scope.
Infix "<?" := NP.ltb (at level 70, no associativity) : np_scope.
Infix "<=?" := NP.leb (at level 70, no associativity) : np_scope.
Infix ">?" := NP.gtb (at level 70, no associativity) : np_scope.
Infix ">=?" := NP.geb (at level 70, no associativity) : np_scope.

(** Python's builtin [max(a, b)]: the first argument is kept unless the
    second compares strictly above it, so a NaN in first position is
    returned and a NaN in second position is ignored. *)
Definition py_max (a b : npfloat) : npfloat := if (b >? a)%np then b else a.

(** ** Landmark arrays *)

Definition point : Type := (npfloat * npfloat)%type.
Definition landmark_array : Type := list point.

Definition vsub (p q : point) : point :=
  ((fst p - fst q)%np, (snd p - snd q)%np).

(** [np.dot] on two vectors of length 2. *)
Definition np_dot (u v : point) : npfloat :=
  (fst u * fst v + snd u * snd v)%np.

(** [np.linalg.norm] of a vector of length 2. *)
Definition np_norm (v : point) : npfloat := NP.sqrt (np_dot v v).

(** A well-formed pixel-space LandmarkSet: 48 points with finite
    coordinates. *)
Definition of_reals (pts : list (R * R)) : landmark_array :=
  map (fun p => (Fin (fst p), Fin (snd p))) pts.

(** ** Effects: exceptions and standard output

    A computation either raises (an [IndexError] or a [ValueError] here):
    [None], or returns a value together with what it printed.  A printed line is the list of the
    fragments of its f-string; [Flt] is a single-precision number. *)

Inductive fragment : Type :=
| Text (s : string)
| Num (x : npfloat)
| Flt (x : spec_float)
| Int (n : Z).

Inductive effect : Type :=
| Print (l : list fragment)
| PltShow.

Definition M (A : Type) : Type := option (A * list effect).

Definition ret {A : Type} (a : A) : M A := Some (a, []).

Definition bind {A B : Type} (m : M A) (k : A -> M B) : M B :=
  match m with
  | None => None
  | Some (a, out1) =>
      match k a with
      | None => None
      | Some (b, out2) => Some (b, out1 ++ out2)
      end
  end.

Notation "x <- m ;; k" := (bind m (fun x => k))
  (at level 61, m at next level, right associativity).
Notation "m ;;; k" := (bind m (fun _ => k))
  (at level 61, right associativity).

Definition print (l : list fragment) : M unit := Some (tt, [Print l]).

(** Indexing raises [IndexError] out of range. *)
Definition get {A : Type} (landmarks : list A) (i : nat) : M A :=
  match nth_error landmarks i with
  | Some p => ret p
  | None => None
  end.

Definition value {A : Type} (m : M A) : option A := option_map fst m.
Definition output {A : Type} (m : M A) : option (list effect) :=
  option_map snd m.
(** ** Single precision

    The operations are the bit-exact ones of [SpecFloat] at precision 24
    and maximal exponent 128, rounding to nearest even.  [np.dot] on two
    vectors of length 2 adds the two rounded products (no fused
    multiply-add), and [np.linalg.norm] is the square root of the dot
    product of the vector with itself; all of it stays in single
    precision. *)
Module Binary32.

Definition prec : Z := 24.
Definition emax : Z := 128.

Definition float32 : Type := spec_float.

Definition of_Z (n : Z) : float32 :=
  match n with
  | Z0 => S754_zero false
  | _ => binary_normalize prec emax n 0 false
  end.

Definition add32 : float32 -> float32 -> float32 := SFadd prec emax.
Definition sub32 : float32 -> float32 -> float32 := SFsub prec emax.
Definition mul32 : float32 -> float32 -> float32 := SFmul prec emax.
Definition div32 : float32 -> float32 -> float32 := SFdiv prec emax.
Definition sqrt32 : float32 -> float32 := SFsqrt prec emax.

Definition point32 : Type := (float32 * float32)%type.

Definition vsub32 (p q : point32) : point32 :=
  (sub32 (fst p) (fst q), sub32 (snd p) (snd q)).

Definition np_dot32 (u v : point32) : float32 :=
  add32 (mul32 (fst u) (fst v)) (mul32 (snd u) (snd v)).

Definition np_norm32 (v : point32) : float32 := sqrt32 (np_dot32 v v).

(** The value [ears] hands to [np.arccos]. *)
Definition cosine_angle32 (a b : point32) : float32 :=
  div32 (np_dot32 a b) (mul32 (np_norm32 a) (np_norm32 b)).

(** The domain of the arccosine. *)
Definition in_arccos_domain (c : float32) : bool :=
  SFleb (of_Z (-1)) c && SFleb c (of_Z 1).

Definition is_zero_vector (v : point32) : bool :=
  SFeqb (fst v) (of_Z 0) && SFeqb (snd v) (of_Z 0).

(** Landmarks 25, 26 and 27 on one diagonal: (1, 1), (0, 0), (2, 2). *)
Definition l25 : point32 := (of_Z 1, of_Z 1).
Definition l26 : point32 := (of_Z 0, of_Z 0).
Definition l27 : point32 := (of_Z 2, of_Z 2).

(** The two difference vectors of the right ear, at apex 26. *)
Definition r_ear_a : point32 := vsub32 l25 l26.
Definition r_ear_b : point32 := vsub32 l27 l26.

(** Comparisons of NumPy scalars: false whenever an operand is NaN. *)
Definition lt32 (a b : float32) : bool := SFltb a b.
Definition le32 (a b : float32) : bool := SFleb a b.
Definition gt32 (a b : float32) : bool := SFltb b a.
Definition ge32 (a b : float32) : bool := SFleb b a.

Definition is_nan32 (a : float32) : bool :=
  match a with
  | S754_nan => true
  | _ => false
  end.

(** A Python [float] literal, the double [m * 2^e], compared with a
    [float32] scalar is first converted to single precision.  (Under
    NumPy's older promotion rule the comparison runs in double precision
    instead; for the literals and comparisons of this program the outcome
    is the same, see [literal_rounding].) *)
Definition of_double (m : positive) (e : Z) : float32 :=
  binary_normalize prec emax (Zpos m) e false.

(** The literals [0.5], [0.7], [0.8] and [1.5]. *)
Definition lit_0_5 : float32 := of_double 4503599627370496 (-53).
Definition lit_0_7 : float32 := of_double 6305039478318694 (-53).
Definition lit_0_8 : float32 := of_double 7205759403792794 (-53).
Definition lit_1_5 : float32 := of_double 6755399441055744 (-52).

(** Python's builtin [min(a, b)] and [max(a, b)] on NumPy scalars: the
    first argument is kept unless the second compares strictly below
    (above) it, so a NaN in first position is returned and a NaN in second
    position is ignored. *)
Definition py_min32 (a b : float32) : float32 := if lt32 b a then b else a.
Definition py_max32 (a b : float32) : float32 := if gt32 b a then b else a.

(** What the platform supplies: the single-precision arccosine on
    [-1, 1] and the single-precision constant 180/pi of [np.degrees].
    Neither is fixed by IEEE 754 to the last bit, so both are
    parameters. *)
Record libm : Type := {
  acos32 : float32 -> float32;
  rad2deg : float32
}.

(** [np.arccos]: NaN (with a warning) outside [-1, 1] and on NaN. *)
Definition np_arccos (L : libm) (c : float32) : float32 :=
  if in_arccos_domain c then acos32 L c else S754_nan.

(** [np.degrees]: one multiplication by the constant. *)
Definition np_degrees (L : libm) (x : float32) : float32 :=
  mul32 x (rad2deg L).

Definition landmarks32 : Type := list point32.

(** Integer pixel coordinates as a [float32] array. *)
Definition of_ints (pts : list (Z * Z)) : landmarks32 :=
  map (fun p => (of_Z (fst p), of_Z (snd p))) pts.

Definition pt32 (landmarks : landmarks32) (i : nat) : point32 :=
  nth i landmarks (of_Z 0, of_Z 0).

End Binary32.

Import Binary32.

(** ** pain_scores.py

    [landmarks] is a (48, 2) [float32] array.  The differences, norms and
    quotients are single-precision operations; the scores are Python
    integers. *)

Definition eyes (landmarks : landmarks32) : M Z :=
  l9 <- get landmarks 9 ;; l8 <- get landmarks 8 ;;
  let left_eye_horizontal_distance := np_norm32 (vsub32 l9 l8) in
  l10 <- get landmarks 10 ;; l11 <- get landmarks 11 ;;
  let left_eye_vertical_distance := np_norm32 (vsub32 l10 l11) in
  l5 <- get landmarks 5 ;; l4 <- get landmarks 4 ;;
  let right_eye_horizontal_distance := np_norm32 (vsub32 l5 l4) in
  l7 <- get landmarks 7 ;; l6 <- get landmarks 6 ;;
  let right_eye_vertical_distance := np_norm32 (vsub32 l7 l6) in
  print [Text "Left eye horizontal distance: ";
         Flt left_eye_horizontal_distance;
         Text ", Left eye vertical distance: ";
         Flt left_eye_vertical_distance] ;;;
  print [Text "Right eye horizontal distance: ";
         Flt right_eye_horizontal_distance;
         Text ", Right eye vertical distance: ";
         Flt right_eye_vertical_distance] ;;;
  let r_ratio := div32 right_eye_vertical_distance right_eye_horizontal_distance in
  let l_ratio := div32 left_eye_vertical_distance left_eye_horizontal_distance in
  if gt32 (py_min32 l_ratio r_ratio) (of_Z 1) then ret (-1)%Z
  else if gt32 (py_min32 l_ratio r_ratio) lit_0_7 then ret 0%Z
  else if ge32 (py_min32 l_ratio r_ratio) lit_0_5 then ret 1%Z
  else ret 2%Z.

(** The angle computation that [ears] writes out four times: the dot
    product over the product of the norms ([cosine_angle32]), handed as it
    is to [np.arccos], then [np.degrees]. *)
Definition angle32 (L : libm) (a b : point32) : float32 :=
  np_degrees L (np_arccos L (cosine_angle32 a b)).

Definition ears (L : libm) (landmarks : landmarks32) : M Z :=
  l25 <- get landmarks 25 ;; l26 <- get landmarks 26 ;;
  let r_ear_a := vsub32 l25 l26 in
  l27 <- get landmarks 27 ;;
  let r_ear_b := vsub32 l27 l26 in
  let r_cosine_angle := cosine_angle32 r_ear_a r_ear_b in
  let r_ear_angle := np_degrees L (np_arccos L r_cosine_angle) in
  l28 <- get landmarks 28 ;;
  let l_ear_a := vsub32 l28 l27 in
  let l_ear_b := vsub32 l26 l27 in
  let l_cosine_angle := cosine_angle32 l_ear_a l_ear_b in
  let l_ear_angle := np_degrees L (np_arccos L l_cosine_angle) in
  print [Text "Right ear angle: "; Flt r_ear_angle;
         Text ", Left ear angle: "; Flt l_ear_angle] ;;;
  l31 <- get landmarks 31 ;; l22 <- get landmarks 22 ;;
  let ear_base_line := vsub32 l31 l22 in
  l30 <- get landmarks 30 ;;
  let l_ear_vertical := vsub32 l31 l30 in
  l23 <- get landmarks 23 ;;
  let r_ear_vertical := vsub32 l22 l23 in
  let l_vert_cosine_angle := cosine_angle32 ear_base_line l_ear_vertical in
  let r_vert_cosine_angle := cosine_angle32 ear_base_line r_ear_vertical in
  let l_vert_angle := np_degrees L (np_arccos L l_vert_cosine_angle) in
  let r_vert_angle := np_degrees L (np_arccos L r_vert_cosine_angle) in
  print [Text "Right ear vertical angle: "; Flt r_vert_angle;
         Text ", Left ear vertical angle: "; Flt l_vert_angle] ;;;
  let min_ear_ang := py_min32 l_ear_angle r_ear_angle in
  let max_vert_angle := py_max32 l_vert_angle r_vert_angle in
  if lt32 (py_max32 l_ear_angle r_ear_angle) (of_Z 115) then ret (-1)%Z
  else if gt32 min_ear_ang (of_Z 145) || lt32 max_vert_angle (of_Z 70)
  then ret 2%Z
  else if (le32 (of_Z 115) min_ear_ang && le32 min_ear_ang (of_Z 125))
          || gt32 max_vert_angle (of_Z 75)
  then ret 0%Z
  else ret 1%Z.

Definition muzzle (landmarks : landmarks32) : M Z :=
  l44 <- get landmarks 44 ;; l32 <- get landmarks 32 ;;
  let l_muzzle_width := np_norm32 (vsub32 l44 l32) in
  l45 <- get landmarks 45 ;; l35 <- get landmarks 35 ;;
  let r_muzzle_width := np_norm32 (vsub32 l45 l35) in
  l42 <- get landmarks 42 ;; l21 <- get landmarks 21 ;;
  let l_muzzle_height := np_norm32 (vsub32 l42 l21) in
  l43 <- get landmarks 43 ;; l19 <- get landmarks 19 ;;
  let r_muzzle_height := np_norm32 (vsub32 l43 l19) in
  let l_muzzle_ratio := div32 l_muzzle_width l_muzzle_height in
  let r_muzzle_ratio := div32 r_muzzle_width r_muzzle_height in
  print [Text "Right muzzle ratio: "; Flt r_muzzle_ratio;
         Text ", Left muzzle ratio: "; Flt l_muzzle_ratio] ;;;
  if gt32 (py_max32 l_muzzle_ratio r_muzzle_ratio) (of_Z 2) then ret 2%Z
  else if gt32 (py_max32 l_muzzle_ratio r_muzzle_ratio) lit_1_5 then ret 1%Z
  else if lt32 (py_max32 l_muzzle_ratio r_muzzle_ratio) lit_0_8 then ret (-1)%Z
  else ret 0%Z.

(** Lines 105 to 113 of [calculate_pain_score]: the three classifier
    calls, the line that reports the scores, [plt.show()] (taken as
    pyplot's: it shows the figure and returns) and the marker line.
    [calculate_pain_score] itself follows [predict_landmarks] below. *)
Definition scoring_stage (L : libm) (landmarks : landmarks32) : M unit :=
  eye_score <- eyes landmarks ;;
  ears_score <- ears L landmarks ;;
  muzzle_score <- muzzle landmarks ;;
  print [Text "eye score: "; Int eye_score;
         Text ", ears_score: "; Int ears_score;
         Text ", muzzle_score: "; Int muzzle_score] ;;;
  Some (tt, [PltShow]) ;;;
  if (eye_score =? -1)%Z || (ears_score =? -1)%Z || (muzzle_score =? -1)%Z
  then print [Text "ERROR"]
  else ret tt.

(** ** The angle in exact arithmetic

    The same quotient and angle on [npfloat], without rounding: what the
    computation of [ears] stands for. *)
Definition cosine_angle (a b : point) : npfloat :=
  (np_dot a b / (np_norm a * np_norm b))%np.

Definition angle_degrees (a b : point) : npfloat :=
  NP.degrees (NP.arccos (cosine_angle a b)).

(** ** NumPy array operations used by the NME code *)

(** [a[:, 0] /= d] and [a[:, 1] /= d] on an (n, 2) array. *)
Definition div_column0 (a : landmark_array) (d : npfloat) : landmark_array :=
  map (fun p => ((fst p / d)%np, snd p)) a.

Definition div_column1 (a : landmark_array) (d : npfloat) : landmark_array :=
  map (fun p => (fst p, (snd p / d)%np)) a.

Fixpoint zip_sub (a b : landmark_array) : landmark_array :=
  match a, b with
  | p :: a', q :: b' => vsub p q :: zip_sub a' b'
  | _, _ => []
  end.

(** [a - b] on (n, 2) and (m, 2) arrays: elementwise when [n = m], a single
    row is broadcast, any other pair of shapes raises [ValueError]. *)
Definition array_sub (a b : landmark_array) : M landmark_array :=
  if (List.length a =? List.length b)%nat then ret (zip_sub a b)
  else match a, b with
       | [p], _ => ret (map (fun q => vsub p q) b)
       | _, [q] => ret (map (fun p => vsub p q) a)
       | _, _ => None
       end.

(** [np.linalg.norm(a, axis=1)]. *)
Definition norm_axis1 (a : landmark_array) : list npfloat := map np_norm a.

Definition np_sum (l : list npfloat) : npfloat := fold_left NP.add l (Fin 0).

(** [np.mean]: the sum over the count; NaN (and a warning) when empty. *)
Definition np_mean (l : list npfloat) : npfloat :=
  (np_sum l / Fin (INR (List.length l)))%np.

(** [np.maximum] / [np.minimum] propagate NaN; [np.max] and [np.min] of an
    empty array raise [ValueError]. *)
Definition np_maximum (a b : npfloat) : npfloat :=
  match a, b with
  | NaN, _ | _, NaN => NaN
  | _, _ => if (a <? b)%np then b else a
  end.

Definition np_minimum (a b : npfloat) : npfloat :=
  match a, b with
  | NaN, _ | _, NaN => NaN
  | _, _ => if (b <? a)%np then b else a
  end.

Definition np_max (l : list npfloat) : M npfloat :=
  match l with
  | [] => None
  | x :: t => ret (fold_left np_maximum t x)
  end.

Definition np_min (l : list npfloat) : M npfloat :=
  match l with
  | [] => None
  | x :: t => ret (fold_left np_minimum t x)
  end.

(** [np.std]: root of the mean squared deviation from the mean. *)
Definition np_std (l : list npfloat) : npfloat :=
  let m := np_mean l in
  NP.sqrt (np_mean (map (fun x => ((x - m) * (x - m))%np) l)).

(** ** inference.py: the NME of one image in [evaluate_model]

    [img_width] and [img_height] are the integers of [image.size], as the
    in-place divisions convert them. *)

Definition evaluate_model_nme (img_file : string)
    (gt_landmarks pred_landmarks : landmark_array)
    (img_width img_height : R) : M npfloat :=
  let gt_normalized := gt_landmarks in
  let gt_normalized := div_column0 gt_normalized (Fin img_width) in
  let gt_normalized := div_column1 gt_normalized (Fin img_height) in
  g8 <- get gt_normalized 8 ;; g11 <- get gt_normalized 11 ;;
  let eye_dist := np_norm (vsub g8 g11) in
  let eye_dist := py_max eye_dist (Fin 1e-5) in
  let pred_normalized := pred_landmarks in
  let pred_normalized := div_column0 pred_normalized (Fin img_width) in
  let pred_normalized := div_column1 pred_normalized (Fin img_height) in
  diff <- array_sub pred_normalized gt_normalized ;;
  let errors := norm_axis1 diff in
  let mean_error := np_mean errors in
  let nme := (mean_error / eye_dist)%np in
  print [Text img_file; Text ": NME = "; Num nme] ;;;
  ret nme.

(** ** validate_on_val_set.py: the NME of one image in the module-level
    loop *)

Definition validate_nme (img_file : string)
    (gt_landmarks pred_landmarks : landmark_array)
    (img_width img_height : R) : M npfloat :=
  let gt_normalized := gt_landmarks in
  let gt_normalized := div_column0 gt_normalized (Fin img_width) in
  let gt_normalized := div_column1 gt_normalized (Fin img_height) in
  let pred_normalized := pred_landmarks in
  let pred_normalized := div_column0 pred_normalized (Fin img_width) in
  let pred_normalized := div_column1 pred_normalized (Fin img_height) in
  g8 <- get gt_normalized 8 ;; g11 <- get gt_normalized 11 ;;
  let eye_dist := np_norm (vsub g8 g11) in
  let eye_dist := py_max eye_dist (Fin 1e-5) in
  diff <- array_sub pred_normalized gt_normalized ;;
  let errors := norm_axis1 diff in
  let mean_error := np_mean errors in
  let nme := (mean_error / eye_dist)%np in
  print [Text img_file; Text ": NME = "; Num nme] ;;;
  ret nme.

(** ** analyze_results.py *)

Record result : Type := {
  image : string;
  nme : npfloat;
  mean_error : npfloat;
  max_landmark_error : npfloat;
  min_landmark_error : npfloat;
  std_error : npfloat;
  image_size : R * R;
  errors : list npfloat
}.

(** One iteration of the loop of [analyze_validation_results]: the entry
    appended to [results]. *)
Definition analyze_image (img_file : string)
    (gt_landmarks pred_landmarks : landmark_array)
    (img_width img_height : R) : M result :=
  let gt_normalized := gt_landmarks in
  let gt_normalized := div_column0 gt_normalized (Fin img_width) in
  let gt_normalized := div_column1 gt_normalized (Fin img_height) in
  let pred_normalized := pred_landmarks in
  let pred_normalized := div_column0 pred_normalized (Fin img_width) in
  let pred_normalized := div_column1 pred_normalized (Fin img_height) in
  g8 <- get gt_normalized 8 ;; g11 <- get gt_normalized 11 ;;
  let eye_dist := np_norm (vsub g8 g11) in
  let eye_dist := py_max eye_dist (Fin 1e-5) in
  diff <- array_sub pred_normalized gt_normalized ;;
  let errors := norm_axis1 diff in
  let mean_error := np_mean errors in
  let nme := (mean_error / eye_dist)%np in
  let landmark_errors := map (fun e => (e / eye_dist)%np) errors in
  max_e <- np_max landmark_errors ;;
  min_e <- np_min landmark_errors ;;
  ret {| image := img_file;
         nme := nme;
         mean_error := mean_error;
         max_landmark_error := max_e;
         min_landmark_error := min_e;
         std_error := np_std landmark_errors;
         image_size := (img_width, img_height);
         errors := landmark_errors |}.

Definition analyze_nme (img_file : string)
    (gt_landmarks pred_landmarks : landmark_array)
    (img_width img_height : R) : M npfloat :=
  r <- analyze_image img_file gt_landmarks pred_landmarks img_width img_height ;;
  ret (nme r).

(** [np.percentile(a, q)] with the default linear method: the array is
    ordered (NaN last; a NaN anywhere makes the result NaN), the virtual
    index is [(n - 1) * q / 100], and the two neighbouring entries are
    interpolated by NumPy's [_lerp]. *)
Definition is_nan (a : npfloat) : bool :=
  match a with
  | NaN => true
  | _ => false
  end.

Definition sort_leb (a b : npfloat) : bool :=
  match a, b with
  | _, NaN => true
  | NaN, _ => false
  | _, _ => (a <=? b)%np
  end.

Fixpoint insert_sorted (x : npfloat) (l : list npfloat) : list npfloat :=
  match l with
  | [] => [x]
  | y :: t => if sort_leb x y then x :: l else y :: insert_sorted x t
  end.

Definition np_sort (l : list npfloat) : list npfloat :=
  fold_right insert_sorted [] l.

Definition lerp (a b t : npfloat) : npfloat :=
  if (t >=? Fin 0.5)%np then (b - (b - a) * (Fin 1 - t))%np
  else (a + (b - a) * t)%np.

Definition np_percentile (a : list npfloat) (q : Z) : npfloat :=
  let arr := np_sort a in
  let n := Z.of_nat (List.length arr) in
  let virtual_index := (q * (n - 1))%Z in
  let previous_index := (virtual_index / 100)%Z in
  let next_index := Z.min (previous_index + 1) (n - 1) in
  let gamma := Fin (IZR (virtual_index mod 100) / 100) in
  if existsb is_nan arr then NaN
  else lerp (nth (Z.to_nat previous_index) arr NaN)
            (nth (Z.to_nat next_index) arr NaN) gamma.

(** The outlier analysis of [analyze_validation_results]: the threshold,
    the list [outliers] and the line that announces it (the listing of the
    outliers, one line each, follows in the source).  On an empty batch the
    function has already raised ([np.min] of an empty list, in the
    statistics it prints first). *)
Definition outlier_threshold (results : list result) : npfloat :=
  let nme_values := map nme results in
  let q1 := np_percentile nme_values 25 in
  let q3 := np_percentile nme_values 75 in
  let iqr := (q3 - q1)%np in
  (q3 + Fin 1.5 * iqr)%np.

Definition outliers (results : list result) : M (list result) :=
  match results with
  | [] => None
  | _ =>
      let outliers :=
        filter (fun r => (nme r >? outlier_threshold results)%np) results in
      print [Text "Outliers (NME > "; Num (outlier_threshold results);
             Text "): "; Int (Z.of_nat (List.length outliers));
             Text " images"] ;;;
      ret outliers
  end.

(** ** Exact geometry of well-formed landmark sets *)

(** The Euclidean distance of two pixel-space points. *)
Definition dist (p q : R * R) : R :=
  R_sqrt.sqrt ((fst p - fst q) * (fst p - fst q)
               + (snd p - snd q) * (snd p - snd q)).

Definition pt (pts : list (R * R)) (i : nat) : R * R := nth i pts (0, 0).

Definition fin_point (p : R * R) : point := (Fin (fst p), Fin (snd p)).


(** ** Synthetic landmark sets

    [eye_sample h v]: both eyes have horizontal eyelid distance [h] and
    vertical eyelid distance [v]; every other landmark sits at the origin. *)
Definition eye_sample (h v : R) : list (R * R) :=
  repeat (0, 0) 5
  ++ [(h, 0); (0, 0); (0, v); (0, 0); (h, 0); (0, v); (0, 0)]
  ++ repeat (0, 0) 36.

(** Real difference vectors, dot product, norm and cosine. *)
Definition vdiff (p q : R * R) : R * R := (fst p - fst q, snd p - snd q).

Definition dotR (u v : R * R) : R := fst u * fst v + snd u * snd v.

Definition normR (v : R * R) : R := R_sqrt.sqrt (dotR v v).

Definition cosR (u v : R * R) : R := dotR u v / (normR u * normR v).

(** ** Synthetic single-precision landmark sets, at integer pixels

    [eye_points c e]: the eye corners 5 and 9 sit at [c] and the eyelids 7
    and 10 at [e], so that on both sides the horizontal distance is the
    norm of [c] and the vertical one the norm of [e]; every other landmark
    sits at the origin. *)
Definition eye_points (c e : Z * Z) : landmarks32 :=
  of_ints (repeat (0, 0)%Z 5
           ++ [c; (0, 0); e; (0, 0); c; e; (0, 0)]%Z
           ++ repeat (0, 0)%Z 36).

(** [muzzle_points a b]: landmarks 44 and 45 at [a], 42 and 43 at [b]: on
    both sides the width is the norm of [a] and the height the norm of
    [b]. *)
Definition muzzle_points (a b : Z * Z) : landmarks32 :=
  of_ints (repeat (0, 0)%Z 42 ++ [b; b; a; a] ++ repeat (0, 0)%Z 2).

(** [ear_points p25 p26 p27 p28]: the four ear-contour landmarks; every
    other landmark at the origin. *)
Definition ear_points (p25 p26 p27 p28 : Z * Z) : landmarks32 :=
  of_ints (repeat (0, 0)%Z 25 ++ [p25; p26; p27; p28] ++ repeat (0, 0)%Z 19).

(** A sample platform, for examples on axis-aligned landmarks: its
    arccosine is right at 1, 0 and -1 (0, pi/2 and pi rounded to single
    precision) and stays at pi/2 elsewhere; its constant is 180/pi
    rounded to single precision. *)
Definition sample_libm : libm :=
  {| acos32 := fun c =>
       if SFeqb c (of_Z 1) then S754_zero false
       else if SFeqb c (of_Z (-1)) then S754_finite false 13176795 (-22)
       else S754_finite false 13176795 (-23);
     rad2deg := S754_finite false 15019745 (-18) |}.

(** All 48 landmarks coincide at the origin. *)
Definition collapsed : landmarks32 := of_ints (repeat (0, 0)%Z 48).

(** Degenerate geometry, per classifier: a coincident landmark pair makes
    one of its ratios or angles undefined. *)
Definition coincide (landmarks : landmarks32) (i j : nat) : Prop :=
  is_zero_vector (vsub32 (pt32 landmarks i) (pt32 landmarks j)) = true.

Definition eyes_degenerate (landmarks : landmarks32) : Prop :=
  coincide landmarks 9 8 \/ coincide landmarks 5 4.

Definition muzzle_degenerate (landmarks : landmarks32) : Prop :=
  coincide landmarks 42 21 \/ coincide landmarks 43 19.

Definition ears_degenerate (landmarks : landmarks32) : Prop :=
  coincide landmarks 25 26 \/ coincide landmarks 27 26
  \/ coincide landmarks 28 27 \/ coincide landmarks 31 22
  \/ coincide landmarks 31 30 \/ coincide landmarks 22 23.

(** The marker line of [calculate_pain_score]. *)
Definition error_marker : effect := Print [Text "ERROR"].


(** ** The NME metric, as the specification words it

    Both landmark sets are normalized by dividing x by the width and y by
    the height; the normalization factor is the distance of the normalized
    ground-truth eye corners 8 and 11, floored at 1e-5; the per-landmark
    error is the distance of corresponding normalized points over that
    factor; the NME is the mean of the per-landmark errors. *)
Definition normalize (w h : R) (p : R * R) : R * R := (fst p / w, snd p / h).

Definition normalization_factor (w h : R) (gt : list (R * R)) : R :=
  Rmax (dist (normalize w h (pt gt 8)) (normalize w h (pt gt 11))) 1e-5.

Definition sumR (l : list R) : R := fold_right Rplus 0 l.

Definition meanR (l : list R) : R := sumR l / INR (List.length l).

Definition point_distances (w h : R) (pred gt : list (R * R)) : list R :=
  map (fun pg => dist (normalize w h (fst pg)) (normalize w h (snd pg)))
      (combine pred gt).

Definition per_landmark_errors (w h : R) (pred gt : list (R * R)) : list R :=
  map (fun d => d / normalization_factor w h gt) (point_distances w h pred gt).

Definition nme_spec (w h : R) (pred gt : list (R * R)) : R :=
  meanR (per_landmark_errors w h pred gt).

(** Scaling a pixel-space landmark set by a factor. *)
Definition scale (s : R) (pts : list (R * R)) : list (R * R) :=
  map (fun p => (s * fst p, s * snd p)) pts.

(** A [results] entry carrying a given finite NME; the remaining fields do
    not enter the outlier analysis. *)
Definition entry (img_file : string) (x : R) : result :=
  {| image := img_file;
     nme := Fin x;
     mean_error := Fin x;
     max_landmark_error := Fin x;
     min_landmark_error := Fin x;
     std_error := Fin 0;
     image_size := (1, 1);
     errors := [] |}.

(** The batch with NME values 0.1, 0.2, 0.2, 0.3, 5.0. *)
Definition sample_batch : list result :=
  [entry "a.png" 0.1; entry "b.png" 0.2; entry "c.png" 0.2;
   entry "d.png" 0.3; entry "e.png" 5.0].

Definition sample_values : list npfloat :=
  [Fin 0.1; Fin 0.2; Fin 0.2; Fin 0.3; Fin 5.0].


(** * The rest of the pipeline

    File selection, the predictor's post-processing, the training target
    and the training-time NME, the evaluation loops and the report. *)

From Stdlib Require Import Ascii Sorted Permutation.

(** ** Python strings *)

(** [s.endswith(suffix)]. *)
Fixpoint endswith (suffix s : string) : bool :=
  String.eqb s suffix
  || match s with
     | EmptyString => false
     | String _ s' => endswith suffix s'
     end.

(** [sub in s]. *)
Fixpoint contains (sub s : string) : bool :=
  prefix sub s
  || match s with
     | EmptyString => false
     | String _ s' => contains sub s'
     end.

(** [s.replace(old, new)] for a non-empty [old]: the occurrences of [old]
    are found from left to right, without overlap; [skip] counts the
    characters of a found occurrence that are still to be passed over. *)
Fixpoint replace_from (old new : string) (skip : nat) (s : string) : string :=
  match s with
  | EmptyString => EmptyString
  | String c s' =>
      match skip with
      | S k => replace_from old new k s'
      | O =>
          if prefix old s
          then (new ++ replace_from old new (String.length old - 1) s')%string
          else String c (replace_from old new 0 s')
      end
  end.

Definition py_replace (s old new : string) : string :=
  replace_from old new 0 s.

(** [os.path.join(a, b)] on POSIX. *)
Definition path_join (a b : string) : string :=
  if prefix "/" b then b
  else if String.eqb a "" || endswith "/" a then (a ++ b)%string
  else (a ++ "/" ++ b)%string.

(** ** File selection *)

(** The image files of [CatLandmarkDataset] (and of the two split scripts):
    names ending in [.png] that mention neither [_landmarks] nor
    [_comparison]. *)
Definition dataset_accepts (f : string) : bool :=
  endswith ".png" f
  && negb (contains "_landmarks" f) && negb (contains "_comparison" f).

(** The image files of [evaluate_model] and [analyze_validation_results]:
    names ending in [.png] but not in [_landmarks.png] or
    [_comparison.png]. *)
Definition evaluate_accepts (f : string) : bool :=
  endswith ".png" f
  && negb (endswith "_landmarks.png" f) && negb (endswith "_comparison.png" f).

(** The path under which [predict_landmarks] saves its figure, and the one
    of [compare_prediction_gt]. *)
Definition vis_path (image_path : string) : string :=
  py_replace (py_replace image_path ".png" "_landmarks.png")
             ".jpg" "_landmarks.jpg".

Definition comparison_path (image_path : string) : string :=
  py_replace image_path ".png" "_comparison.png".

(** [os.path.basename]: what follows the last slash. *)
Fixpoint basename (p : string) : string :=
  match p with
  | EmptyString => EmptyString
  | String c p' =>
      if contains "/" p' then basename p'
      else if Ascii.eqb c "/"%char then p'
      else p
  end.

(** ** inference.py: [visualize_landmarks] and [predict_landmarks]

    Standard output only: the figure itself, and the file it is saved to,
    are not part of the output model. *)

(** [a[:, 0] *= d] and [a[:, 1] *= d] on an (n, 2) array. *)
Definition mul_column0 (a : landmark_array) (d : npfloat) : landmark_array :=
  map (fun p => ((fst p * d)%np, snd p)) a.

Definition mul_column1 (a : landmark_array) (d : npfloat) : landmark_array :=
  map (fun p => (fst p, (snd p * d)%np)) a.

(** Rows of two consecutive values. *)
Fixpoint pair_up {A : Type} (a : list A) : list (A * A) :=
  match a with
  | x :: y :: t => (x, y) :: pair_up t
  | _ => []
  end.

(** [a.reshape(48, 2)]: [ValueError] unless [a] holds 96 values. *)
Definition reshape_48_2 {A : Type} (a : list A) : M (list (A * A)) :=
  if (List.length a =? 96)%nat then ret (pair_up a) else None.

(** [a.flatten()] of an (n, 2) array. *)
Definition flatten {A : Type} (a : list (A * A)) : list A :=
  flat_map (fun p => [fst p; snd p]) a.

(** [save_path] is [None] for Python's [None]; an empty string is falsy
    too. *)
Definition visualize_landmarks {A : Type} (image_path : string)
    (landmarks : list (A * A)) (save_path : option string) : M unit :=
  match save_path with
  | Some (String c p) =>
      print [Text "Saved visualization to "; Text (String c p)]
  | _ => Some (tt, [PltShow])
  end.

(** [predictions] is what the network returns on the preprocessed image,
    [original_size] the [(width, height)] of the image. *)
Definition predict_landmarks (predictions : list npfloat) (image_path : string)
    (original_size : R * R) (save_vis : bool)
  : M (landmark_array * landmark_array) :=
  landmarks_normalized <- reshape_48_2 predictions ;;
  let landmarks := landmarks_normalized in
  let landmarks := mul_column0 landmarks (Fin (fst original_size)) in
  let landmarks := mul_column1 landmarks (Fin (snd original_size)) in
  (if save_vis
   then visualize_landmarks image_path landmarks (Some (vis_path image_path))
   else ret tt) ;;;
  ret (landmarks, landmarks_normalized).

(** ** dataset.py: the regression target of [__getitem__]

    [landmarks] is the label array of the item, [original_size] the size of
    its image. *)
Definition getitem_target (landmarks : landmark_array) (original_size : R * R)
    (normalize_landmarks : bool) : list npfloat :=
  let landmarks :=
    if normalize_landmarks then
      let orig_width := fst original_size in
      let orig_height := snd original_size in
      let landmarks := div_column0 landmarks (Fin orig_width) in
      div_column1 landmarks (Fin orig_height)
    else landmarks in
  let landmarks_flat := flatten landmarks in
  landmarks_flat.

(** ** inference.py: [predict_landmarks] in single precision

    The array the predictor hands to [pain_scores.py]: the network output
    is a [float32] tensor, and the in-place products with the integers of
    [image.size] stay in single precision. *)
Module Float32.

Definition mul_column0 (a : landmarks32) (d : float32) : landmarks32 :=
  map (fun p => (mul32 (fst p) d, snd p)) a.

Definition mul_column1 (a : landmarks32) (d : float32) : landmarks32 :=
  map (fun p => (fst p, mul32 (snd p) d)) a.

Definition predict_landmarks (predictions : list float32) (image_path : string)
    (original_size : Z * Z) (save_vis : bool)
  : M (landmarks32 * landmarks32) :=
  landmarks_normalized <- reshape_48_2 predictions ;;
  let landmarks := landmarks_normalized in
  let landmarks := mul_column0 landmarks (of_Z (fst original_size)) in
  let landmarks := mul_column1 landmarks (of_Z (snd original_size)) in
  (if save_vis
   then visualize_landmarks image_path landmarks (Some (vis_path image_path))
   else ret tt) ;;;
  ret (landmarks, landmarks_normalized).

End Float32.

(** ** pain_scores.py: [calculate_pain_score]

    A Python tuple is a list of its components; unpacking into three names
    raises [ValueError] unless there are exactly three. *)
Definition unpack3 {A : Type} (t : list A) : M (A * A * A) :=
  match t with
  | [a; b; c] => ret (a, b, c)
  | _ => None
  end.

(** A loop whose body only prints. *)
Definition print_all (lines : list (list fragment)) : M unit :=
  Some (tt, map Print lines).

(** [checkpoint] is [None] when no file exists at [model_path]; otherwise
    it is the outcome of [torch.load] and [load_state_dict]: they raise, or
    give the checkpoint's [val_loss] entry if it has one.  [predictions] is
    what the network returns on the preprocessed image and [original_size]
    the [(width, height)] of the image.  [plt] is the third name of the
    unpacking. *)
Definition calculate_pain_score (L : libm) (image_path model_path : string)
    (checkpoint : option (M (option npfloat)))
    (predictions : list float32) (original_size : Z * Z) : M unit :=
  (match checkpoint with
   | Some load =>
       val_loss <- load ;;
       print [Text "Loaded model from "; Text model_path] ;;;
       match val_loss with
       | Some v => print [Text "Model val_loss: "; Num v]
       | None => ret tt
       end
   | None =>
       print [Text "Warning: Model file "; Text model_path;
              Text " not found. Using untrained model."]
   end) ;;;
  result <- Float32.predict_landmarks predictions image_path original_size
                                      false ;;
  t <- unpack3 [fst result; snd result] ;;
  let landmarks := fst (fst t) in
  let plt := snd t in
  print [Text "Predicted "; Int (Z.of_nat (List.length landmarks));
         Text " landmarks"] ;;;
  print [Text "Confidence Scores:"] ;;;
  print [Text "Landmark coordinates (pixels):"] ;;;
  print_all (map (fun ip => [Text "  Landmark "; Int (Z.of_nat (fst ip));
                             Text ": ("; Flt (fst (snd ip)); Text ", ";
                             Flt (snd (snd ip)); Text ")"])
                 (combine (seq 0 (List.length landmarks)) landmarks)) ;;;
  scoring_stage L landmarks.

(** A network output whose pixel landmarks, on a 640 x 480 image, have
    both eyes wide open: horizontal eyelid distance 160, vertical 240. *)
Definition wide_open_output : list float32 :=
  flatten (repeat (of_Z 0, of_Z 0) 5
           ++ [(of_double 1 (-2), of_Z 0); (of_Z 0, of_Z 0);
               (of_Z 0, of_double 1 (-1)); (of_Z 0, of_Z 0);
               (of_double 1 (-2), of_Z 0); (of_Z 0, of_double 1 (-1));
               (of_Z 0, of_Z 0)]
           ++ repeat (of_Z 0, of_Z 0) 36).

(** Rows of two consecutive reals. *)
Fixpoint pair_upR (a : list R) : list (R * R) :=
  match a with
  | x :: y :: t => (x, y) :: pair_upR t
  | _ => []
  end.

(** A landmark set moved by one vector. *)
Definition shift (dx dy : R) (pts : list (R * R)) : list (R * R) :=
  map (fun p => (fst p + dx, snd p + dy)) pts.

(** ** analyze_results.py: the performance categories *)

Definition excellent (results : list result) : list result :=
  filter (fun r => (nme r <? Fin 0.5)%np) results.

Definition good (results : list result) : list result :=
  filter (fun r => (Fin 0.5 <=? nme r)%np && (nme r <? Fin 1.0)%np) results.

Definition fair (results : list result) : list result :=
  filter (fun r => (Fin 1.0 <=? nme r)%np && (nme r <? Fin 2.0)%np) results.

Definition poor (results : list result) : list result :=
  filter (fun r => (nme r >=? Fin 2.0)%np) results.

(** ** inference.py: [evaluate_model]

    What the function reads from outside: the names in the image directory,
    the size of an image file and what the network returns on it, and the
    [labels] array of a label file.  A missing file is an exception. *)
Record disk : Type := {
  listdir : list string;
  open_image : string -> option (R * R);
  network : string -> list npfloat;
  load_labels : string -> option landmark_array
}.

Definition lift {A : Type} (o : option A) : M A :=
  match o with
  | Some a => ret a
  | None => None
  end.

(** [sorted] on a list of strings. *)
Fixpoint insert_str (x : string) (l : list string) : list string :=
  match l with
  | [] => [x]
  | y :: t => if String.leb x y then x :: l else y :: insert_str x t
  end.

Definition py_sorted (l : list string) : list string :=
  fold_right insert_str [] l.

(** [l[:k]]: a negative [k] counts from the end. *)
Definition slice_to {A : Type} (l : list A) (k : Z) : list A :=
  if (0 <=? k)%Z then firstn (Z.to_nat k) l
  else firstn (Z.to_nat (Z.of_nat (List.length l) + k)) l.

Definition selected_files (d : disk) (num_samples : Z) : list string :=
  slice_to (py_sorted (filter evaluate_accepts (listdir d))) num_samples.

Fixpoint evaluate_loop (d : disk) (image_dir label_dir : string)
    (image_files : list string) (total_nme : npfloat) : M npfloat :=
  match image_files with
  | [] => ret total_nme
  | img_file :: rest =>
      let img_path := path_join image_dir img_file in
      let label_path :=
        path_join label_dir (py_replace img_file ".png" ".json") in
      gt_landmarks <- lift (load_labels d label_path) ;;
      original_size <- lift (open_image d img_path) ;;
      prediction <- predict_landmarks (network d img_path) img_path
                                      original_size true ;;
      let pred_landmarks := fst prediction in
      size <- lift (open_image d img_path) ;;
      let img_width := fst size in
      let img_height := snd size in
      nme <- evaluate_model_nme img_file gt_landmarks pred_landmarks
                                img_width img_height ;;
      evaluate_loop d image_dir label_dir rest (total_nme + nme)%np
  end.

(** The running total starts as the Python float 0.0: with no image file
    the final division is a [ZeroDivisionError]. *)
Definition evaluate_model (d : disk) (test_data_dir : string)
    (num_samples : Z) : M npfloat :=
  let image_dir := path_join test_data_dir "images" in
  let label_dir := path_join test_data_dir "labels" in
  let image_files := selected_files d num_samples in
  total_nme <- evaluate_loop d image_dir label_dir image_files (Fin 0) ;;
  match image_files with
  | [] => None
  | _ =>
      let avg_nme := (total_nme / Fin (INR (List.length image_files)))%np in
      print [Text "Average NME: "; Num avg_nme] ;;;
      ret avg_nme
  end.

(** The pixel landmarks the predictor returns for network outputs [rs]. *)
Definition denormalized (w h : R) (rs : list R) : list (R * R) :=
  map (fun p => (fst p * w, snd p * h)) (pair_upR rs).

(** What is on disk for one evaluated image: label, network output, size. *)
Record image_facts : Type := {
  fact_gt : list (R * R);
  fact_outputs : list R;
  fact_width : R;
  fact_height : R
}.

Definition on_disk (d : disk) (test_data_dir : string)
    (facts : string -> image_facts) (img_file : string) : Prop :=
  let img_path := path_join (path_join test_data_dir "images") img_file in
  let label_path := path_join (path_join test_data_dir "labels")
                              (py_replace img_file ".png" ".json") in
  load_labels d label_path = Some (of_reals (fact_gt (facts img_file)))
  /\ open_image d img_path
     = Some (fact_width (facts img_file), fact_height (facts img_file))
  /\ network d img_path = map Fin (fact_outputs (facts img_file))
  /\ List.length (fact_gt (facts img_file)) = 48%nat
  /\ List.length (fact_outputs (facts img_file)) = 96%nat
  /\ 0 < fact_width (facts img_file)
  /\ 0 < fact_height (facts img_file).

(** The NME of one evaluated image, as the specification words it. *)
Definition image_nme (facts : string -> image_facts) (img_file : string) : R :=
  let f := facts img_file in
  nme_spec (fact_width f) (fact_height f)
           (denormalized (fact_width f) (fact_height f) (fact_outputs f))
           (fact_gt f).

(** A directory with two images, one saved figure and a text file; every
    label puts the 48 landmarks of [eye_sample 10 8], the network answers
    with 96 times one half, every image is 640 by 480. *)
Definition sample_disk : disk :=
  {| listdir := ["b.png"; "notes.txt"; "a_landmarks.png"; "a.png"]%string;
     open_image := fun _ => Some (640, 480);
     network := fun _ => map Fin (repeat (1 / 2) 96);
     load_labels := fun _ => Some (of_reals (eye_sample 10 8)) |}.

Definition sample_facts : string -> image_facts :=
  fun _ => {| fact_gt := eye_sample 10 8;
              fact_outputs := repeat (1 / 2) 96;
              fact_width := 640;
              fact_height := 480 |}.

(** ** train.py: [validate]

    A batch of the loader, as the loop sees it: the network's output on the
    images and the targets, both tensors of shape (batch size, row
    length). *)
Record batch : Type := {
  batch_predictions : list (list npfloat);
  batch_landmarks : list (list npfloat)
}.

Fixpoint chunks_fuel (fuel n : nat) (l : list npfloat) : list (list npfloat) :=
  match fuel with
  | O => []
  | S fuel' =>
      match l with
      | [] => []
      | _ => firstn n l :: chunks_fuel fuel' n (skipn n l)
      end
  end.

(** [t.view(-1, 48, 2)] on a contiguous tensor: the values, row after row,
    are regrouped in samples of 48 points; [RuntimeError] unless their
    number is a multiple of 96. *)
Definition view_48_2 (t : list (list npfloat)) : M (list landmark_array) :=
  let flat := List.concat t in
  if (List.length flat mod 96 =? 0)%nat
  then ret (map pair_up (chunks_fuel (List.length flat) 96 flat))
  else None.

(** Elementwise operation along the first dimension, with broadcasting of
    a single entry; any other mismatch raises. *)
Definition broadcast2 {A B C : Type} (f : A -> B -> C)
    (a : list A) (b : list B) : M (list C) :=
  if (List.length a =? List.length b)%nat
  then ret (map (fun ab => f (fst ab) (snd ab)) (combine a b))
  else match a, b with
       | [x], _ => ret (map (fun y => f x y) b)
       | _, [y] => ret (map (fun x => f x y) a)
       | _, _ => None
       end.

(** [torch.clamp(x, min=m)]: NaN stays NaN. *)
Definition clamp_min (m x : npfloat) : npfloat :=
  match x with
  | NaN => NaN
  | _ => if (x <? m)%np then m else x
  end.

(** Row [i] of a sample of 48 points. *)
Definition row (sample : landmark_array) (i : nat) : point :=
  nth i sample (NaN, NaN).

(** The NME part of one iteration: [nme_per_sample]. *)
Definition nme_per_sample (b : batch) : M (list npfloat) :=
  pred_landmarks <- view_48_2 (batch_predictions b) ;;
  gt_landmarks <- view_48_2 (batch_landmarks b) ;;
  let eye_dist_pred :=
    map (fun s => np_norm (vsub (row s 8) (row s 11))) pred_landmarks in
  let eye_dist_gt :=
    map (fun s => np_norm (vsub (row s 8) (row s 11))) gt_landmarks in
  let eye_dist := map (clamp_min (Fin 1e-5)) eye_dist_gt in
  diff <- broadcast2 zip_sub pred_landmarks gt_landmarks ;;
  let errors := map norm_axis1 diff in
  let mean_errors := map np_mean errors in
  broadcast2 NP.div mean_errors eye_dist.

Fixpoint validate_loop (criterion : batch -> npfloat) (dataloader : list batch)
    (running_loss running_nme : npfloat) : M (npfloat * npfloat) :=
  match dataloader with
  | [] => ret (running_loss, running_nme)
  | b :: rest =>
      let loss := criterion b in
      let running_loss := (running_loss + loss)%np in
      nmes <- nme_per_sample b ;;
      let running_nme := (running_nme + np_mean nmes)%np in
      validate_loop criterion rest running_loss running_nme
  end.

(** Both running sums are Python floats: with an empty loader the final
    divisions are a [ZeroDivisionError]. *)
Definition validate (criterion : batch -> npfloat) (dataloader : list batch)
  : M (npfloat * npfloat) :=
  sums <- validate_loop criterion dataloader (Fin 0) (Fin 0) ;;
  match dataloader with
  | [] => None
  | _ =>
      let n := Fin (INR (List.length dataloader)) in
      let avg_loss := (fst sums / n)%np in
      let avg_nme := (snd sums / n)%np in
      ret (avg_loss, avg_nme)
  end.

(** The batch the loader builds from the facts of its images: the network's
    outputs, and the targets of [__getitem__]. *)
Definition batch_of (facts : list image_facts) : batch :=
  {| batch_predictions := map (fun f => map Fin (fact_outputs f)) facts;
     batch_landmarks :=
       map (fun f => getitem_target (of_reals (fact_gt f))
                                    (fact_width f, fact_height f) true)
           facts |}.

Definition well_formed_facts (f : image_facts) : Prop :=
  List.length (fact_gt f) = 48%nat
  /\ List.length (fact_outputs f) = 96%nat
  /\ 0 < fact_width f /\ 0 < fact_height f.

(** The NME [evaluate_model] gives the same image and network output. *)
Definition facts_nme (f : image_facts) : R :=
  nme_spec (fact_width f) (fact_height f)
           (denormalized (fact_width f) (fact_height f) (fact_outputs f))
           (fact_gt f).

(** The order of [sorted] on file names. *)
Definition str_le (a b : string) : Prop := String.leb a b = true.

(** ** Sorting reals, to follow [np.percentile] on finite values *)
Fixpoint insertR (x : R) (l : list R) : list R :=
  match l with
  | [] => [x]
  | y :: t => if Rleb x y then x :: l else y :: insertR x t
  end.

Definition sortR (l : list R) : list R := fold_right insertR [] l.

(** The value [np.percentile] interpolates for [q] on an ascending list of
    reals. *)
Definition percentileR (arr : list R) (q : Z) : R :=
  let n := Z.of_nat (List.length arr) in
  let virtual_index := (q * (n - 1))%Z in
  let i := Z.to_nat (virtual_index / 100) in
  let j := Z.to_nat (Z.min (virtual_index / 100 + 1) (n - 1)) in
  nth i arr 0 + (nth j arr 0 - nth i arr 0)
                * (IZR (virtual_index mod 100) / 100).

(** A landmark set stretched by [sx] along x and by [sy] along y. *)
Definition stretch (sx sy : R) (pts : list (R * R)) : list (R * R) :=
  map (fun p => (sx * fst p, sy * snd p)) pts.

(** * Properties *)

(** ** Real comparisons as booleans *)

Lemma Rltb_true (x y : R) : Rltb x y = true <-> x < y.
Proof. unfold Rltb; destruct (Rlt_dec x y); split; intros; try easy. Qed.

Lemma Rltb_false (x y : R) : Rltb x y = false <-> y <= x.
Proof.
  unfold Rltb; destruct (Rlt_dec x y); split; intros; try easy; lra.
Qed.

Lemma Rleb_true (x y : R) : Rleb x y = true <-> x <= y.
Proof. unfold Rleb; destruct (Rle_dec x y); split; intros; try easy. Qed.

Lemma Rleb_false (x y : R) : Rleb x y = false <-> y < x.
Proof.
  unfold Rleb; destruct (Rle_dec x y); split; intros; try easy; lra.
Qed.

Lemma Reqb_true (x y : R) : Reqb x y = true <-> x = y.
Proof. unfold Reqb; destruct (Req_dec_T x y); split; intros; try easy. Qed.

Lemma Reqb_false (x y : R) : Reqb x y = false <-> x <> y.
Proof. unfold Reqb; destruct (Req_dec_T x y); split; intros; try easy. Qed.

(** Decide one boolean real comparison of the goal or context by [lra]. *)
Ltac rcases :=
  repeat match goal with
  | |- context [Rltb ?x ?y] =>
      let E := fresh "E" in
      destruct (Rltb x y) eqn:E;
      [apply Rltb_true in E | apply Rltb_false in E]
  | |- context [Rleb ?x ?y] =>
      let E := fresh "E" in
      destruct (Rleb x y) eqn:E;
      [apply Rleb_true in E | apply Rleb_false in E]
  | |- context [Reqb ?x ?y] =>
      let E := fresh "E" in
      destruct (Reqb x y) eqn:E;
      [apply Reqb_true in E | apply Reqb_false in E]
  end.

(** ** The monad *)

Lemma bind_ret_l {A B : Type} (a : A) (k : A -> M B) : bind (ret a) k = k a.
Proof. unfold bind, ret. destruct (k a) as [[b out]|]; reflexivity. Qed.

Lemma value_ret {A : Type} (a : A) : value (ret a) = Some a.
Proof. reflexivity. Qed.

Lemma value_print {A : Type} (l : list fragment) (k : M A) :
  value (print l ;;; k) = value k.
Proof. unfold bind, print, value. destruct k as [[b out]|]; reflexivity. Qed.

(** ** Well-formed landmark sets: exact geometry *)

Lemma dist_nonneg (p q : R * R) : 0 <= dist p q.
Proof. apply sqrt_pos. Qed.

Lemma get_of_reals (pts : list (R * R)) (i : nat) :
  (i < List.length pts)%nat ->
  get (of_reals pts) i = ret (fin_point (pt pts i)).
Proof.
  intros Hi. unfold get, of_reals, pt.
  rewrite nth_error_map.
  rewrite (nth_error_nth' pts (0, 0) Hi). reflexivity.
Qed.

Lemma vsub_fin (p q : R * R) :
  vsub (fin_point p) (fin_point q)
  = fin_point (fst p - fst q, snd p - snd q).
Proof. reflexivity. Qed.

Lemma np_dot_fin (u v : R * R) :
  np_dot (fin_point u) (fin_point v) = Fin (fst u * fst v + snd u * snd v).
Proof. reflexivity. Qed.

Lemma np_norm_fin (v : R * R) :
  np_norm (fin_point v)
  = Fin (R_sqrt.sqrt (fst v * fst v + snd v * snd v)).
Proof.
  unfold np_norm. rewrite np_dot_fin. unfold NP.sqrt.
  rcases; [nra | reflexivity].
Qed.

Lemma np_norm_vsub_fin (p q : R * R) :
  np_norm (vsub (fin_point p) (fin_point q)) = Fin (dist p q).
Proof. rewrite vsub_fin, np_norm_fin. reflexivity. Qed.

(** ** Division and maximum on finite values *)

Lemma div_fin (a b : R) : b <> 0 -> (Fin a / Fin b)%np = Fin (a / b).
Proof. intros Hb. unfold NP.div. rcases; try contradiction; reflexivity. Qed.

Lemma div_zero_zero : (Fin 0 / Fin 0)%np = NaN.
Proof. unfold NP.div. rcases; try contradiction; reflexivity. Qed.

Lemma py_max_fin (a b : R) : py_max (Fin a) (Fin b) = Fin (Rmax a b).
Proof.
  unfold py_max, NP.gtb, NP.ltb, Rmax.
  rcases; destruct (Rle_dec a b); f_equal; lra.
Qed.
(** ** Single-precision comparisons *)

Lemma SFcompare_antisym (x y : spec_float) :
  SFcompare y x = option_map CompOpp (SFcompare x y).
Proof.
  destruct x as [sx | sx | | sx mx ex], y as [sy | sy | | sy my ey];
    try destruct sx; try destruct sy; try reflexivity;
    cbn [SFcompare option_map];
    rewrite (Z.compare_antisym ex ey);
    destruct (ex ?= ey)%Z; cbn [CompOpp]; try reflexivity;
    rewrite ?Pos.compare_cont_antisym; reflexivity.
Qed.

Lemma SFcompare_refl (x : spec_float) :
  is_nan32 x = false -> SFcompare x x = Some Eq.
Proof.
  destruct x as [s | s | | s m e]; try destruct s;
    try reflexivity; try discriminate; intros _;
    cbn [SFcompare]; rewrite Z.compare_refl, Pos.compare_cont_refl;
    reflexivity.
Qed.

Lemma SFcompare_nan (x y : spec_float) :
  is_nan32 x = false -> is_nan32 y = false -> SFcompare x y <> None.
Proof.
  destruct x as [sx | sx | | sx mx ex], y as [sy | sy | | sy my ey];
    try discriminate; intros _ _; cbn [SFcompare];
    try destruct sx; try destruct sy; discriminate.
Qed.

(** Away from NaN, Python's [min] and [max] of two scalars are the smaller
    and the larger one. *)
Lemma py_min32_spec (a b : float32) :
  is_nan32 a = false -> is_nan32 b = false ->
  (py_min32 a b = a \/ py_min32 a b = b)
  /\ le32 (py_min32 a b) a = true /\ le32 (py_min32 a b) b = true.
Proof.
  intros Ha Hb. unfold py_min32, lt32, le32, SFltb, SFleb.
  pose proof (SFcompare_antisym a b) as Hab.
  pose proof (SFcompare_nan a b Ha Hb) as Hn.
  destruct (SFcompare a b) as [[| |]|] eqn:E; try contradiction;
    cbn [option_map CompOpp] in Hab; rewrite Hab;
    rewrite ?E, ?Hab, ?SFcompare_refl by assumption; tauto.
Qed.

Lemma py_max32_spec (a b : float32) :
  is_nan32 a = false -> is_nan32 b = false ->
  (py_max32 a b = a \/ py_max32 a b = b)
  /\ le32 a (py_max32 a b) = true /\ le32 b (py_max32 a b) = true.
Proof.
  intros Ha Hb. unfold py_max32, gt32, le32, SFltb, SFleb.
  pose proof (SFcompare_antisym a b) as Hab.
  pose proof (SFcompare_nan a b Ha Hb) as Hn.
  destruct (SFcompare a b) as [[| |]|] eqn:E; try contradiction;
    cbn [option_map CompOpp] in Hab; rewrite ?Hab;
    rewrite ?E, ?Hab, ?SFcompare_refl by assumption; tauto.
Qed.

(** The thresholds as single-precision numbers. *)
Lemma literals :
  lit_0_5 = S754_finite false 8388608 (-24)
  /\ lit_0_7 = S754_finite false 11744051 (-24)
  /\ lit_0_8 = S754_finite false 13421773 (-24)
  /\ lit_1_5 = S754_finite false 12582912 (-23)
  /\ of_Z 1 = S754_finite false 8388608 (-23)
  /\ of_Z 2 = S754_finite false 8388608 (-22).
Proof. vm_compute. repeat split. Qed.

(** The two literals that are not single-precision numbers.  The double
    0.7 lies strictly between its single-precision value and the next
    single-precision number, and the double 0.8 strictly between the
    previous single-precision number and its single-precision value.  So
    no single-precision [x] separates a literal from its conversion, and
    [x > 0.7] and [x < 0.8] come out the same whether the literal is
    converted to single precision or [x] to double precision. *)
Lemma literal_rounding :
  lit_0_7 = S754_finite false 11744051 (-24)
  /\ (11744051 * 2 ^ 29 < 6305039478318694 < 11744052 * 2 ^ 29)%Z
  /\ lit_0_8 = S754_finite false 13421773 (-24)
  /\ (13421772 * 2 ^ 29 < 7205759403792794 < 13421773 * 2 ^ 29)%Z.
Proof. vm_compute. repeat split. Qed.

(** Comparison with a positive threshold [m * 2^e]. *)
Lemma gt32_finite (x : float32) (m : positive) (e : Z) :
  gt32 x (S754_finite false m e) = true <->
  x = S754_infinity false
  \/ exists mx ex, x = S754_finite false mx ex
                   /\ (e < ex \/ e = ex /\ (m < mx)%positive)%Z.
Proof.
  unfold gt32, SFltb.
  destruct x as [s | s | | s mx ex]; cbn [SFcompare].
  - split; [discriminate | intros [H | (? & ? & H & _)]; discriminate H].
  - destruct s; split; try discriminate; try (intros _; now left);
      try reflexivity.
    intros [H | (? & ? & H & _)]; discriminate H.
  - split; [discriminate | intros [H | (? & ? & H & _)]; discriminate H].
  - destruct s.
    + split; [discriminate | intros [H | (? & ? & H & _)]; discriminate H].
    + split.
      * intros H. right. exists mx, ex. split; [reflexivity|].
        destruct (Z.compare_spec e ex) as [E | E | E]; try discriminate.
        -- right. split; [assumption|].
           rewrite Pos.compare_cont_spec in H. cbn [Pos.switch_Eq] in H.
           unfold Pos.lt.
           destruct (m ?= mx)%positive; [discriminate | reflexivity | discriminate].
        -- now left.
      * intros [H | (mx' & ex' & Heq & H)]; [discriminate|].
        injection Heq as -> ->.
        destruct (Z.compare_spec e ex') as [E | E | E].
        -- destruct H as [H | [_ H]]; [lia|].
           rewrite Pos.compare_cont_spec. cbn [Pos.switch_Eq].
           unfold Pos.lt in H. now rewrite H.
        -- reflexivity.
        -- exfalso. destruct H as [H | [H _]]; lia.
Qed.

Lemma ge32_finite (x : float32) (m : positive) (e : Z) :
  ge32 x (S754_finite false m e) = true <->
  x = S754_infinity false
  \/ exists mx ex, x = S754_finite false mx ex
                   /\ (e < ex \/ e = ex /\ (m <= mx)%positive)%Z.
Proof.
  unfold ge32, SFleb.
  destruct x as [s | s | | s mx ex]; cbn [SFcompare].
  - split; [discriminate | intros [H | (? & ? & H & _)]; discriminate H].
  - destruct s; split; try discriminate; try (intros _; now left);
      try reflexivity.
    intros [H | (? & ? & H & _)]; discriminate H.
  - split; [discriminate | intros [H | (? & ? & H & _)]; discriminate H].
  - destruct s.
    + split; [discriminate | intros [H | (? & ? & H & _)]; discriminate H].
    + split.
      * intros H. right. exists mx, ex. split; [reflexivity|].
        destruct (Z.compare_spec e ex) as [E | E | E]; try discriminate.
        -- right. split; [assumption|].
           rewrite Pos.compare_cont_spec in H. cbn [Pos.switch_Eq] in H.
           unfold Pos.le. intros C. rewrite C in H. discriminate.
        -- now left.
      * intros [H | (mx' & ex' & Heq & H)]; [discriminate|].
        injection Heq as -> ->.
        destruct (Z.compare_spec e ex') as [E | E | E].
        -- destruct H as [H | [_ H]]; [lia|].
           rewrite Pos.compare_cont_spec. cbn [Pos.switch_Eq].
           unfold Pos.le in H.
           destruct (m ?= mx')%positive;
             [reflexivity | reflexivity | now contradiction H].
        -- reflexivity.
        -- exfalso. destruct H as [H | [H _]]; lia.
Qed.

(** The thresholds of [eyes] are ordered: a value above one of them is
    above the next. *)
Lemma above_1_above_0_7 (x : float32) :
  gt32 x (of_Z 1) = true -> gt32 x lit_0_7 = true.
Proof.
  destruct literals as (_ & -> & _ & _ & -> & _).
  rewrite !gt32_finite.
  intros [H | (mx & ex & H & Hc)]; [now left | right].
  exists mx, ex. split; [assumption | lia].
Qed.

Lemma above_0_7_above_0_5 (x : float32) :
  gt32 x lit_0_7 = true -> ge32 x lit_0_5 = true.
Proof.
  destruct literals as (-> & -> & _).
  rewrite gt32_finite, ge32_finite.
  intros [H | (mx & ex & H & Hc)]; [now left | right].
  exists mx, ex. split; [assumption|].
  destruct Hc as [Hc | [Hc Hm]]; [now left | right].
  split; [assumption | lia].
Qed.

(** ** Reading a 48-point array *)

Lemma get_nth {A : Type} (l : list A) (i : nat) (d : A) :
  (i < List.length l)%nat -> get l i = ret (nth i l d).
Proof.
  intros Hi. unfold get. now rewrite (nth_error_nth' l d Hi).
Qed.

(** ** The eyes classifier *)

(** The value of [eyes] on a 48-point array, with the index table and the
    measurements spelled out. *)
Lemma eyes_value (landmarks : landmarks32) :
  List.length landmarks = 48%nat ->
  let m := py_min32
             (div32 (np_norm32 (vsub32 (pt32 landmarks 10) (pt32 landmarks 11)))
                    (np_norm32 (vsub32 (pt32 landmarks 9) (pt32 landmarks 8))))
             (div32 (np_norm32 (vsub32 (pt32 landmarks 7) (pt32 landmarks 6)))
                    (np_norm32 (vsub32 (pt32 landmarks 5) (pt32 landmarks 4)))) in
  value (eyes landmarks)
  = Some (if gt32 m (of_Z 1) then (-1)%Z
          else if gt32 m lit_0_7 then 0%Z
          else if ge32 m lit_0_5 then 1%Z
          else 2%Z).
Proof.
  intros Hlen m. unfold eyes.
  repeat (rewrite (get_nth landmarks _ (of_Z 0, of_Z 0)) by (rewrite Hlen; lia);
          rewrite bind_ret_l).
  rewrite !value_print. fold (pt32 landmarks 10) (pt32 landmarks 11)
    (pt32 landmarks 9) (pt32 landmarks 8) (pt32 landmarks 7) (pt32 landmarks 6)
    (pt32 landmarks 5) (pt32 landmarks 4). fold m.
  destruct (gt32 m (of_Z 1)); [reflexivity|].
  destruct (gt32 m lit_0_7); [reflexivity|].
  destruct (ge32 m lit_0_5); reflexivity.
Qed.


(** The same eyes on integer pixels: horizontal distance 10 on both sides
    and vertical distance 8, 7, 5, 4 and 12. *)
Example eyes_ratio_080 : value (eyes (eye_points (10, 0)%Z (0, 8)%Z)) = Some 0%Z.
Proof. vm_compute. reflexivity. Qed.

Example eyes_ratio_070 : value (eyes (eye_points (10, 0)%Z (0, 7)%Z)) = Some 1%Z.
Proof. vm_compute. reflexivity. Qed.

Example eyes_ratio_050 : value (eyes (eye_points (10, 0)%Z (0, 5)%Z)) = Some 1%Z.
Proof. vm_compute. reflexivity. Qed.

Example eyes_ratio_040 : value (eyes (eye_points (10, 0)%Z (0, 4)%Z)) = Some 2%Z.
Proof. vm_compute. reflexivity. Qed.

Example eyes_ratio_120 : value (eyes (eye_points (10, 0)%Z (0, 12)%Z)) = Some (-1)%Z.
Proof. vm_compute. reflexivity. Qed.

(** Rounding decides at the thresholds.  With the eye corners at (20, 30)
    and the eyelids at (14, 21) both distances are irrational, their exact
    quotient is 7/10, and the quotient of the rounded distances is the
    single-precision number next above the threshold: the score is 0. *)
Example eyes_rounded_ratio :
  let landmarks := eye_points (20, 30)%Z (14, 21)%Z in
  div32 (np_norm32 (vsub32 (pt32 landmarks 10) (pt32 landmarks 11)))
        (np_norm32 (vsub32 (pt32 landmarks 9) (pt32 landmarks 8)))
  = S754_finite false 11744052 (-24)
  /\ value (eyes landmarks) = Some 0%Z.
Proof. vm_compute. split; reflexivity. Qed.

(** The score is not a function of the exact ratio: the same landmarks
    three times as far from the origin have the same exact quotient 7/10,
    a computed ratio just below the threshold, and the score 1. *)
Example eyes_not_scale_invariant :
  value (eyes (eye_points (20, 30)%Z (14, 21)%Z)) = Some 0%Z
  /\ value (eyes (eye_points (60, 90)%Z (42, 63)%Z)) = Some 1%Z.
Proof. vm_compute. split; reflexivity. Qed.


Lemma dist_same (p : R * R) : dist p p = 0.
Proof.
  unfold dist.
  replace ((fst p - fst p) * (fst p - fst p)
           + (snd p - snd p) * (snd p - snd p)) with 0 by ring.
  apply sqrt_0.
Qed.

(** ** The muzzle classifier *)

Lemma above_2_above_1_5 (x : float32) :
  gt32 x (of_Z 2) = true -> gt32 x lit_1_5 = true.
Proof.
  destruct literals as (_ & _ & _ & -> & _ & ->).
  rewrite !gt32_finite.
  intros [H | (mx & ex & H & Hc)]; [now left | right].
  exists mx, ex. split; [assumption | lia].
Qed.

Lemma below_0_8_not_above_1_5 (x : float32) :
  lt32 x lit_0_8 = true -> gt32 x lit_1_5 = false.
Proof.
  destruct literals as (_ & _ & -> & -> & _).
  unfold lt32, gt32, SFltb.
  destruct x as [s | s | | s mx ex]; try destruct s; cbn [SFcompare];
    try reflexivity; try discriminate.
  destruct (Z.compare_spec ex (-24)) as [E | E | E];
    destruct (Z.compare_spec (-23) ex) as [E' | E' | E'];
    try reflexivity; try discriminate; lia.
Qed.

Lemma muzzle_value (landmarks : landmarks32) :
  List.length landmarks = 48%nat ->
  let m := py_max32
             (div32 (np_norm32 (vsub32 (pt32 landmarks 44) (pt32 landmarks 32)))
                    (np_norm32 (vsub32 (pt32 landmarks 42) (pt32 landmarks 21))))
             (div32 (np_norm32 (vsub32 (pt32 landmarks 45) (pt32 landmarks 35)))
                    (np_norm32 (vsub32 (pt32 landmarks 43) (pt32 landmarks 19)))) in
  value (muzzle landmarks)
  = Some (if gt32 m (of_Z 2) then 2%Z
          else if gt32 m lit_1_5 then 1%Z
          else if lt32 m lit_0_8 then (-1)%Z
          else 0%Z).
Proof.
  intros Hlen m. unfold muzzle.
  repeat (rewrite (get_nth landmarks _ (of_Z 0, of_Z 0)) by (rewrite Hlen; lia);
          rewrite bind_ret_l).
  rewrite !value_print. fold (pt32 landmarks 44) (pt32 landmarks 32)
    (pt32 landmarks 42) (pt32 landmarks 21) (pt32 landmarks 45)
    (pt32 landmarks 35) (pt32 landmarks 43) (pt32 landmarks 19). fold m.
  destruct (gt32 m (of_Z 2)); [reflexivity|].
  destruct (gt32 m lit_1_5); [reflexivity|].
  destruct (lt32 m lit_0_8); reflexivity.
Qed.


(** Width 3, 2, 1 on both sides against height 1, and width 1 against
    height 2. *)
Example muzzle_ratio_3 :
  value (muzzle (muzzle_points (3, 0)%Z (0, 1)%Z)) = Some 2%Z.
Proof. vm_compute. reflexivity. Qed.

Example muzzle_ratio_2 :
  value (muzzle (muzzle_points (2, 0)%Z (0, 1)%Z)) = Some 1%Z.
Proof. vm_compute. reflexivity. Qed.

Example muzzle_ratio_1 :
  value (muzzle (muzzle_points (1, 0)%Z (0, 1)%Z)) = Some 0%Z.
Proof. vm_compute. reflexivity. Qed.

(** Rounding decides at the threshold 0.8 as well.  With landmarks 44 and
    45 at (4, 16) and 42 and 43 at (5, 20) the exact quotient of width and
    height is 4/5, the quotient of the rounded norms is the
    single-precision number next below the threshold 0.8, and the score is
    -1. *)
Example muzzle_rounded_ratio :
  let landmarks := muzzle_points (4, 16)%Z (5, 20)%Z in
  div32 (np_norm32 (vsub32 (pt32 landmarks 44) (pt32 landmarks 32)))
        (np_norm32 (vsub32 (pt32 landmarks 42) (pt32 landmarks 21)))
  = S754_finite false 13421772 (-24)
  /\ value (muzzle landmarks) = Some (-1)%Z.
Proof. vm_compute. split; reflexivity. Qed.


(** ** Angles between finite vectors, in exact arithmetic *)

Lemma dotR_self_nonneg (v : R * R) : 0 <= dotR v v.
Proof. unfold dotR. nra. Qed.

Lemma normR_nonneg (v : R * R) : 0 <= normR v.
Proof. apply sqrt_pos. Qed.

Create HintDb geom.
#[local] Hint Resolve dist_nonneg dotR_self_nonneg normR_nonneg : geom.

Lemma normR_sqr (v : R * R) : normR v * normR v = dotR v v.
Proof. apply sqrt_sqrt. auto with geom. Qed.

Lemma normR_zero (v : R * R) : normR v = 0 -> v = (0, 0).
Proof.
  intros H. pose proof (normR_sqr v) as Hs. rewrite H in Hs.
  unfold dotR in Hs. destruct v as [x y]; simpl in *.
  assert (x = 0) by nra. assert (y = 0) by nra. now subst.
Qed.

Lemma np_norm_normR (v : R * R) : np_norm (fin_point v) = Fin (normR v).
Proof. apply np_norm_fin. Qed.

(** Cauchy-Schwarz in the plane. *)
Lemma cauchy_schwarz (u v : R * R) :
  - (normR u * normR v) <= dotR u v <= normR u * normR v.
Proof.
  pose proof (normR_nonneg u) as Hu. pose proof (normR_nonneg v) as Hv.
  assert (Hsq : dotR u v * dotR u v
                <= (normR u * normR v) * (normR u * normR v)).
  { replace ((normR u * normR v) * (normR u * normR v))
      with ((normR u * normR u) * (normR v * normR v)) by ring.
    rewrite !normR_sqr. unfold dotR.
    destruct u as [a b], v as [c d]; simpl. clear Hu Hv.
    pose proof (Rle_0_sqr (a * d - b * c)) as Hs. unfold Rsqr in Hs.
    replace ((a * a + b * b) * (c * c + d * d))
      with ((a * c + b * d) * (a * c + b * d)
            + (a * d - b * c) * (a * d - b * c)) by ring.
    lra. }
  assert (0 <= normR u * normR v) by nra.
  split; nra.
Qed.

Lemma cosR_bounds (u v : R * R) :
  normR u <> 0 -> normR v <> 0 -> -1 <= cosR u v <= 1.
Proof.
  intros Hu Hv.
  assert (0 <= normR u) by auto with geom.
  assert (0 <= normR v) by auto with geom.
  assert (Hn : 0 < normR u * normR v) by (apply Rmult_lt_0_compat; lra).
  destruct (cauchy_schwarz u v) as [Hlo Hhi]. unfold cosR. split.
  - apply Rmult_le_reg_r with (normR u * normR v); [assumption|].
    unfold Rdiv. rewrite Rmult_assoc, Rinv_l by lra. lra.
  - apply Rmult_le_reg_r with (normR u * normR v); [assumption|].
    unfold Rdiv. rewrite Rmult_assoc, Rinv_l by lra. lra.
Qed.

Lemma cosine_angle_fin (u v : R * R) :
  normR u <> 0 -> normR v <> 0 ->
  cosine_angle (fin_point u) (fin_point v) = Fin (cosR u v).
Proof.
  intros Hu Hv. unfold cosine_angle.
  rewrite !np_norm_normR, np_dot_fin. simpl NP.mul.
  apply div_fin. intros H. apply Rmult_integral in H. tauto.
Qed.

Lemma PI_180_pos : 0 < 180 / PI.
Proof. apply Rdiv_lt_0_compat; [lra | apply PI_RGT_0]. Qed.

Lemma angle_degrees_fin (u v : R * R) :
  normR u <> 0 -> normR v <> 0 ->
  angle_degrees (fin_point u) (fin_point v)
  = Fin (acos (cosR u v) * (180 / PI)).
Proof.
  intros Hu Hv. unfold angle_degrees. rewrite cosine_angle_fin by assumption.
  destruct (cosR_bounds u v Hu Hv) as [Hlo Hhi].
  unfold NP.arccos. rcases; try lra. reflexivity.
Qed.

Lemma degrees_range (x : R) : -1 <= x <= 1 -> 0 <= acos x * (180 / PI) <= 180.
Proof.
  intros Hx. destruct (acos_bound x) as [Hlo Hhi].
  pose proof PI_RGT_0 as Hpi. pose proof PI_180_pos as Hk. split.
  - apply Rmult_le_pos; lra.
  - replace 180 with (PI * (180 / PI)) at 2 by (field; lra).
    apply Rmult_le_compat_r; lra.
Qed.

(** ** The ears classifier *)

Lemma ears_value (L : libm) (landmarks : landmarks32) :
  List.length landmarks = 48%nat ->
  let r_ear_angle := angle32 L (vsub32 (pt32 landmarks 25) (pt32 landmarks 26))
                               (vsub32 (pt32 landmarks 27) (pt32 landmarks 26)) in
  let l_ear_angle := angle32 L (vsub32 (pt32 landmarks 28) (pt32 landmarks 27))
                               (vsub32 (pt32 landmarks 26) (pt32 landmarks 27)) in
  let l_vert_angle := angle32 L (vsub32 (pt32 landmarks 31) (pt32 landmarks 22))
                                (vsub32 (pt32 landmarks 31) (pt32 landmarks 30)) in
  let r_vert_angle := angle32 L (vsub32 (pt32 landmarks 31) (pt32 landmarks 22))
                                (vsub32 (pt32 landmarks 22) (pt32 landmarks 23)) in
  let min_ear_ang := py_min32 l_ear_angle r_ear_angle in
  let max_vert_angle := py_max32 l_vert_angle r_vert_angle in
  value (ears L landmarks)
  = Some (if lt32 (py_max32 l_ear_angle r_ear_angle) (of_Z 115) then (-1)%Z
          else if gt32 min_ear_ang (of_Z 145) || lt32 max_vert_angle (of_Z 70)
          then 2%Z
          else if (le32 (of_Z 115) min_ear_ang && le32 min_ear_ang (of_Z 125))
                  || gt32 max_vert_angle (of_Z 75)
          then 0%Z
          else 1%Z).
Proof.
  intros Hlen ra la lv rv mn mv. unfold ears.
  repeat (rewrite (get_nth landmarks _ (of_Z 0, of_Z 0)) by (rewrite Hlen; lia);
          rewrite bind_ret_l).
  rewrite !value_print.
  change (value
    (if lt32 (py_max32 la ra) (of_Z 115) then ret (-1)%Z
     else if gt32 mn (of_Z 145) || lt32 mv (of_Z 70) then ret 2%Z
     else if (le32 (of_Z 115) mn && le32 mn (of_Z 125)) || gt32 mv (of_Z 75)
     then ret 0%Z else ret 1%Z) = Some
    (if lt32 (py_max32 la ra) (of_Z 115) then (-1)%Z
     else if gt32 mn (of_Z 145) || lt32 mv (of_Z 70) then 2%Z
     else if (le32 (of_Z 115) mn && le32 mn (of_Z 125)) || gt32 mv (of_Z 75)
     then 0%Z else 1%Z)).
  destruct (lt32 (py_max32 la ra) (of_Z 115)); [reflexivity|].
  destruct (gt32 mn (of_Z 145) || lt32 mv (of_Z 70)); [reflexivity|].
  destruct ((le32 (of_Z 115) mn && le32 mn (of_Z 125)) || gt32 mv (of_Z 75));
    reflexivity.
Qed.


(** NaN angles fail every comparison: with landmarks 25, 26, 27 on the
    diagonal the cosine at apex 26 is above 1 (see [Binary32.r_ear_a]), at
    apex 27 as well, every angle is NaN and the score is 1, on every
    platform. *)
Example ears_diagonal (L : libm) :
  value (ears L (ear_points (1, 1)%Z (0, 0)%Z (2, 2)%Z (0, 0)%Z)) = Some 1%Z.
Proof. vm_compute. reflexivity. Qed.


(** ** Degenerate geometry *)

Lemma eyes_collapsed : value (eyes collapsed) = Some 2%Z.
Proof. vm_compute. reflexivity. Qed.

Lemma ears_collapsed (L : libm) : value (ears L collapsed) = Some 1%Z.
Proof. vm_compute. reflexivity. Qed.

Lemma muzzle_collapsed : value (muzzle collapsed) = Some 0%Z.
Proof. vm_compute. reflexivity. Qed.

(** One eye degenerate (left corners coincide), the other with ratio 0.8:
    the infinite left ratio loses the minimum and the score is 0. *)
Example eyes_one_side_degenerate :
  value (eyes (of_ints (repeat (0, 0) 5
                        ++ [(10, 0); (0, 0); (0, 8); (0, 0); (0, 0); (0, 8); (0, 0)]
                        ++ repeat (0, 0) 36)%Z)) = Some 0%Z.
Proof. vm_compute. reflexivity. Qed.

(** C6, as stated, fails: on the well-formed landmark array whose 48 points
    coincide, every ratio and angle is undefined, and yet the classifiers
    return 2, 1 and 0, not the sentinel. *)
Lemma degenerate_not_sentinel :
  List.length collapsed = 48%nat
  /\ eyes_degenerate collapsed
  /\ ears_degenerate collapsed
  /\ muzzle_degenerate collapsed
  /\ value (eyes collapsed) <> Some (-1)%Z
  /\ (forall L : libm, value (ears L collapsed) <> Some (-1)%Z)
  /\ value (muzzle collapsed) <> Some (-1)%Z.
Proof.
  split; [reflexivity|].
  split; [left; reflexivity|].
  split; [left; reflexivity|].
  split; [left; reflexivity|].
  rewrite eyes_collapsed, muzzle_collapsed.
  split; [discriminate|]. split; [|discriminate].
  intros L. rewrite ears_collapsed. discriminate.
Qed.

(** C6, amended.  The three classifiers are total on every well-formed
    48-point pixel-space landmark array: each returns, without raising, a
    score among -1, 0, 1 and 2. *)
Theorem classifiers_total (L : libm) (landmarks : landmarks32) :
  List.length landmarks = 48%nat ->
  exists e r m : Z,
    value (eyes landmarks) = Some e
    /\ value (ears L landmarks) = Some r
    /\ value (muzzle landmarks) = Some m
    /\ In e [-1; 0; 1; 2]%Z /\ In r [-1; 0; 1; 2]%Z /\ In m [-1; 0; 1; 2]%Z.
Proof.
  intros Hlen.
  pose proof (eyes_value landmarks Hlen) as He.
  pose proof (ears_value L landmarks Hlen) as Hr.
  pose proof (muzzle_value landmarks Hlen) as Hm.
  cbv zeta in He, Hr, Hm.
  do 3 eexists. split; [exact He|]. split; [exact Hr|]. split; [exact Hm|].
  repeat split;
    repeat match goal with
           | |- context [if ?c then _ else _] => destruct c
           end; simpl; tauto.
Qed.

Lemma classifiers_total_witness :
  List.length (eye_points (10, 0)%Z (0, 8)%Z) = 48%nat
  /\ exists e r m : Z,
       value (eyes (eye_points (10, 0)%Z (0, 8)%Z)) = Some e
       /\ value (ears sample_libm (eye_points (10, 0)%Z (0, 8)%Z)) = Some r
       /\ value (muzzle (eye_points (10, 0)%Z (0, 8)%Z)) = Some m
       /\ In e [-1; 0; 1; 2]%Z /\ In r [-1; 0; 1; 2]%Z /\ In m [-1; 0; 1; 2]%Z.
Proof.
  split; [reflexivity|].
  apply (classifiers_total sample_libm (eye_points (10, 0)%Z (0, 8)%Z)).
  reflexivity.
Defined.

(** ** The score aggregator *)

(** The lines the classifiers print are measurement lines, never the
    marker. *)
Ltac classifier_output :=
  unfold get;
  repeat match goal with
         | |- context [nth_error ?l ?i] =>
             destruct (nth_error l i); [rewrite bind_ret_l | discriminate]
         end;
  repeat match goal with
         | |- context [if ?c then _ else _] => destruct c
         end;
  simpl; intros [= <- <-]; unfold error_marker;
  intros [H | [H | H]]; solve [discriminate H | destruct H].

Lemma eyes_output (lm : landmarks32) (s : Z) (out : list effect) :
  eyes lm = Some (s, out) -> ~ In error_marker out.
Proof. unfold eyes. classifier_output. Qed.

Lemma ears_output (L : libm) (lm : landmarks32) (s : Z) (out : list effect) :
  ears L lm = Some (s, out) -> ~ In error_marker out.
Proof. unfold ears. classifier_output. Qed.

Lemma muzzle_output (lm : landmarks32) (s : Z) (out : list effect) :
  muzzle lm = Some (s, out) -> ~ In error_marker out.
Proof.
  unfold muzzle, get.
  repeat match goal with
         | |- context [nth_error ?l ?i] =>
             destruct (nth_error l i); [rewrite bind_ret_l | discriminate]
         end;
  repeat match goal with
         | |- context [if ?c then _ else _] => destruct c
         end;
  simpl; intros [= <- <-]; unfold error_marker;
  intros [H | H]; solve [discriminate H | destruct H].
Qed.

Lemma value_inv {A : Type} (m : M A) (a : A) :
  value m = Some a -> exists out, m = Some (a, out).
Proof.
  destruct m as [[a' out]|]; simpl; [|discriminate].
  intros [= ->]. now exists out.
Qed.

(** Lines 105 to 113 on their own: whenever the three classifiers produce
    sub-scores, the stage completes and prints the marker line if and only
    if at least one sub-score is -1. *)
Lemma scoring_stage_marker (L : libm) (lm : landmarks32) (e r m : Z) :
  value (eyes lm) = Some e ->
  value (ears L lm) = Some r ->
  value (muzzle lm) = Some m ->
  exists out : list effect,
    scoring_stage L lm = Some (tt, out)
    /\ (In error_marker out <-> e = (-1)%Z \/ r = (-1)%Z \/ m = (-1)%Z).
Proof.
  intros He Hr Hm.
  apply value_inv in He as [oe He]. apply value_inv in Hr as [or_ Hr].
  apply value_inv in Hm as [om Hm].
  pose proof (eyes_output _ _ _ He) as Ne.
  pose proof (ears_output _ _ _ _ Hr) as Nr.
  pose proof (muzzle_output _ _ _ Hm) as Nm.
  unfold scoring_stage. rewrite He, Hr, Hm. simpl.
  destruct ((e =? -1)%Z || (r =? -1)%Z || (m =? -1)%Z) eqn:Hb; simpl;
    eexists; (split; [reflexivity|]).
  - split.
    + intros _. apply orb_true_iff in Hb as [Hb | Hb];
        [apply orb_true_iff in Hb as [Hb | Hb]|];
        apply Z.eqb_eq in Hb; tauto.
    + intros _. rewrite !in_app_iff. do 3 right. simpl.
      right. right. now left.
  - apply orb_false_iff in Hb as [Hb Hb3].
    apply orb_false_iff in Hb as [Hb1 Hb2].
    apply Z.eqb_neq in Hb1, Hb2, Hb3. split.
    + rewrite !in_app_iff. simpl. unfold error_marker in *.
      intros [H | [H | [H | H]]]; try tauto.
      destruct H as [H | [H | H]]; try discriminate H. destruct H.
    + tauto.
Qed.

(** A computation whose continuation always raises, raises. *)
Lemma bind_raises {A B : Type} (m : M A) (k : A -> M B) :
  (forall a, k a = None) -> bind m k = None.
Proof.
  intros Hk. unfold bind. destruct m as [[a out]|]; [|reflexivity].
  now rewrite Hk.
Qed.

(** C5.  Lines 105 to 113 print the marker line exactly when a sub-score is
    -1 ([scoring_stage_marker]), but [calculate_pain_score] never gets
    there.  On a 640 x 480 image whose predicted landmarks have both eyes
    wide open the predictor returns its two arrays, [eyes] scores them -1
    and the scoring stage would print the marker; the function instead
    raises at the unpacking of three names, whether or not a model file
    exists, and prints no marker. *)
Theorem error_marker_never_reached (L : libm) (model_path : string)
    (checkpoint : option (M (option npfloat))) :
  exists landmarks landmarks_norm : landmarks32,
    value (Float32.predict_landmarks wide_open_output "fine.jpg"
                                     (640, 480)%Z false)
    = Some (landmarks, landmarks_norm)
    /\ value (eyes landmarks) = Some (-1)%Z
    /\ (exists out : list effect,
          scoring_stage L landmarks = Some (tt, out) /\ In error_marker out)
    /\ calculate_pain_score L "fine.jpg" model_path checkpoint
                            wide_open_output (640, 480)%Z = None.
Proof.
  set (landmarks :=
         of_ints (repeat (0, 0) 5
                  ++ [(160, 0); (0, 0); (0, 240); (0, 0); (160, 0); (0, 240);
                      (0, 0)]
                  ++ repeat (0, 0) 36)%Z).
  exists landmarks. eexists.
  split; [vm_compute; reflexivity|].
  assert (He : value (eyes landmarks) = Some (-1)%Z) by (vm_compute; reflexivity).
  assert (Hr : value (ears L landmarks) = Some 1%Z) by (vm_compute; reflexivity).
  assert (Hm : value (muzzle landmarks) = Some 0%Z) by (vm_compute; reflexivity).
  split; [exact He|]. split.
  - destruct (scoring_stage_marker L landmarks _ _ _ He Hr Hm) as (out & Hs & Hi).
    exists out. split; [exact Hs|]. apply Hi. now left.
  - unfold calculate_pain_score.
    apply bind_raises. intros _. apply bind_raises. intros result.
    reflexivity.
Qed.

(** ** The NME computations on well-formed inputs *)

Lemma zip_sub_of_reals (a b : list (R * R)) :
  zip_sub (of_reals a) (of_reals b)
  = of_reals (map (fun pg => vdiff (fst pg) (snd pg)) (combine a b)).
Proof.
  revert b. induction a as [|p a IH]; intros [|q b]; simpl; try reflexivity.
  now rewrite IH.
Qed.

Lemma array_sub_of_reals (a b : list (R * R)) :
  List.length a = List.length b ->
  array_sub (of_reals a) (of_reals b)
  = ret (of_reals (map (fun pg => vdiff (fst pg) (snd pg)) (combine a b))).
Proof.
  intros Hlen. unfold array_sub.
  unfold of_reals at 1 2. rewrite !length_map, Hlen, Nat.eqb_refl.
  now rewrite zip_sub_of_reals.
Qed.

Lemma norm_axis1_of_reals (l : list (R * R)) :
  norm_axis1 (of_reals l) = map (fun v => Fin (normR v)) l.
Proof.
  unfold norm_axis1, of_reals. rewrite map_map. apply map_ext.
  intros v. apply np_norm_normR.
Qed.

Lemma np_sum_fin (l : list R) : np_sum (map Fin l) = Fin (sumR l).
Proof.
  unfold np_sum.
  enough (H : forall a, fold_left NP.add (map Fin l) (Fin a) = Fin (a + sumR l)).
  { rewrite H. f_equal. ring. }
  induction l as [|x l IH]; intros a; simpl.
  - f_equal. ring.
  - rewrite IH. f_equal. ring.
Qed.

Lemma np_mean_fin (l : list R) :
  l <> [] -> np_mean (map Fin l) = Fin (meanR l).
Proof.
  intros Hl. unfold np_mean, meanR. rewrite np_sum_fin, length_map.
  apply div_fin. destruct l as [|x l]; [contradiction|].
  apply not_0_INR. simpl. lia.
Qed.

Lemma sumR_scale (k : R) (l : list R) :
  sumR (map (fun d => d * k) l) = sumR l * k.
Proof. induction l as [|x l IH]; simpl; [ring | rewrite IH; ring]. Qed.

(** The mean of the per-landmark errors is the mean distance over the
    factor. *)
Lemma meanR_div (f : R) (l : list R) :
  meanR (map (fun d => d / f) l) = meanR l / f.
Proof.
  unfold meanR. rewrite length_map. unfold Rdiv at 1.
  change (fun d => d / f) with (fun d => d * / f).
  rewrite sumR_scale. unfold Rdiv. ring.
Qed.

Lemma combine_map_both {A B : Type} (f : A -> B) (a b : list A) :
  combine (map f a) (map f b)
  = map (fun pg => (f (fst pg), f (snd pg))) (combine a b).
Proof.
  revert b. induction a as [|x a IH]; intros [|y b]; simpl; try reflexivity.
  now rewrite IH.
Qed.

Section OneImage.

Variables (img_file : string) (w h : R).
Hypothesis Hw : 0 < w.
Hypothesis Hh : 0 < h.
Variables gt pred : list (R * R).
Hypothesis Hgt : List.length gt = 48%nat.
Hypothesis Hpred : List.length pred = 48%nat.

Lemma normalize_columns (pts : list (R * R)) :
  div_column1 (div_column0 (of_reals pts) (Fin w)) (Fin h)
  = of_reals (map (normalize w h) pts).
Proof.
  unfold div_column1, div_column0, of_reals.
  rewrite !map_map. apply map_ext. intros [x y]; cbn [fst snd normalize].
  rewrite !div_fin by lra. reflexivity.
Qed.

Lemma pt_map_normalize (pts : list (R * R)) (i : nat) :
  (i < List.length pts)%nat ->
  pt (map (normalize w h) pts) i = normalize w h (pt pts i).
Proof.
  intros Hi. unfold pt.
  rewrite (nth_indep _ (0, 0) (normalize w h (0, 0)))
    by (now rewrite length_map).
  apply map_nth.
Qed.

Lemma normalization_factor_pos : 0 < normalization_factor w h gt.
Proof.
  unfold normalization_factor.
  apply Rlt_le_trans with 1e-5; [lra | apply Rmax_r].
Qed.

Lemma errors_of_reals :
  norm_axis1
    (of_reals (map (fun pg => vdiff (fst pg) (snd pg))
                   (combine (map (normalize w h) pred)
                            (map (normalize w h) gt))))
  = map Fin (point_distances w h pred gt).
Proof.
  rewrite norm_axis1_of_reals, combine_map_both. unfold point_distances.
  rewrite !map_map. apply map_ext. intros [p g]. reflexivity.
Qed.

Lemma point_distances_length :
  List.length (point_distances w h pred gt) = 48%nat.
Proof.
  unfold point_distances.
  rewrite length_map, length_combine, Hpred, Hgt. reflexivity.
Qed.

(** The NME of [evaluate_model] on well-formed inputs, in real terms. *)
Lemma evaluate_model_nme_value :
  value (evaluate_model_nme img_file (of_reals gt) (of_reals pred) w h)
  = Some (Fin (meanR (point_distances w h pred gt)
               / normalization_factor w h gt)).
Proof.
  unfold evaluate_model_nme. cbv zeta.
  rewrite !normalize_columns.
  repeat (rewrite get_of_reals by (rewrite length_map, Hgt; lia);
          rewrite bind_ret_l).
  rewrite !pt_map_normalize by (rewrite Hgt; lia).
  rewrite np_norm_vsub_fin, py_max_fin.
  rewrite array_sub_of_reals by (rewrite !length_map; congruence).
  rewrite bind_ret_l, errors_of_reals.
  rewrite np_mean_fin.
  - rewrite value_print, value_ret. f_equal.
    fold (normalization_factor w h gt).
    apply div_fin. pose proof normalization_factor_pos as Hf. lra.
  - intros He. apply (f_equal (@List.length R)) in He.
    rewrite point_distances_length in He. discriminate He.
Qed.

End OneImage.

(** C4.  For 48-point pixel-space predicted and ground-truth landmarks and
    positive width and height, the NME of [evaluate_model] is the mean over
    the 48 landmarks of the per-landmark error: the distance between
    corresponding points, after x is divided by the width and y by the
    height, divided by the normalization factor, which is the distance of
    the normalized ground-truth points 8 and 11 floored at 1e-5.
    Equivalently it is the mean distance over the factor. *)
Theorem nme_formula (img_file : string) (gt pred : list (R * R)) (w h : R) :
  List.length gt = 48%nat -> List.length pred = 48%nat -> 0 < w -> 0 < h ->
  value (evaluate_model_nme img_file (of_reals gt) (of_reals pred) w h)
  = Some (Fin (nme_spec w h pred gt))
  /\ List.length (per_landmark_errors w h pred gt) = 48%nat
  /\ nme_spec w h pred gt
     = meanR (point_distances w h pred gt) / normalization_factor w h gt
  /\ 1e-5 <= normalization_factor w h gt.
Proof.
  intros Hgt Hpred Hw Hh.
  assert (Heq : nme_spec w h pred gt
                = meanR (point_distances w h pred gt)
                  / normalization_factor w h gt)
    by apply meanR_div.
  split; [|split; [|split]].
  - rewrite Heq. now apply evaluate_model_nme_value.
  - unfold per_landmark_errors.
    rewrite length_map. now apply point_distances_length.
  - exact Heq.
  - apply Rmax_r.
Qed.

Lemma nme_formula_witness :
  value (evaluate_model_nme "cat.png" (of_reals (eye_sample 10 8))
                            (of_reals (eye_sample 10 7)) 640 480)
  = Some (Fin (nme_spec 640 480 (eye_sample 10 7) (eye_sample 10 8))).
Proof.
  apply (nme_formula "cat.png" (eye_sample 10 8) (eye_sample 10 7) 640 480);
    [reflexivity | reflexivity | lra | lra].
Defined.

(** A prediction equal to the ground truth has NME 0. *)
Lemma sumR_zero {A : Type} (l : list A) : sumR (map (fun _ => 0) l) = 0.
Proof. induction l as [|x l IH]; simpl; [reflexivity | rewrite IH; ring]. Qed.

Lemma point_distances_same (w h : R) (gt : list (R * R)) :
  point_distances w h gt gt = map (fun _ => 0) gt.
Proof.
  unfold point_distances.
  induction gt as [|p gt IH]; simpl; [reflexivity|].
  now rewrite dist_same, IH.
Qed.

Lemma nme_identical (img_file : string) (gt : list (R * R)) (w h : R) :
  List.length gt = 48%nat -> 0 < w -> 0 < h ->
  value (evaluate_model_nme img_file (of_reals gt) (of_reals gt) w h)
  = Some (Fin 0).
Proof.
  intros Hgt Hw Hh.
  rewrite (evaluate_model_nme_value img_file w h Hw Hh gt gt Hgt Hgt).
  rewrite point_distances_same. unfold meanR. rewrite sumR_zero.
  do 2 f_equal. unfold Rdiv. ring.
Qed.

(** ** Scale invariance *)

Lemma normalize_scale (s w h : R) (p : R * R) :
  s <> 0 -> w <> 0 -> h <> 0 ->
  normalize (s * w) (s * h) (s * fst p, s * snd p) = normalize w h p.
Proof.
  intros Hs Hw Hh. unfold normalize; simpl. f_equal; field; tauto.
Qed.

Lemma pt_scale (s : R) (pts : list (R * R)) (i : nat) :
  (i < List.length pts)%nat ->
  pt (scale s pts) i = (s * fst (pt pts i), s * snd (pt pts i)).
Proof.
  intros Hi. unfold pt, scale.
  rewrite (nth_indep _ (0, 0) (s * fst (0, 0), s * snd (0, 0)))
    by (now rewrite length_map).
  apply (map_nth (fun p => (s * fst p, s * snd p))).
Qed.

Lemma point_distances_scale (s w h : R) (pred gt : list (R * R)) :
  s <> 0 -> w <> 0 -> h <> 0 ->
  point_distances (s * w) (s * h) (scale s pred) (scale s gt)
  = point_distances w h pred gt.
Proof.
  intros Hs Hw Hh. unfold point_distances, scale.
  rewrite combine_map_both, map_map. apply map_ext. intros [p g]; simpl.
  now rewrite !normalize_scale.
Qed.

Lemma normalization_factor_scale (s w h : R) (gt : list (R * R)) :
  (11 < List.length gt)%nat -> s <> 0 -> w <> 0 -> h <> 0 ->
  normalization_factor (s * w) (s * h) (scale s gt)
  = normalization_factor w h gt.
Proof.
  intros Hlen Hs Hw Hh. unfold normalization_factor.
  rewrite !pt_scale by lia. now rewrite !normalize_scale.
Qed.

(** C8.  Multiplying the predicted landmarks, the ground-truth landmarks,
    the width and the height by one positive factor leaves the NME of
    [evaluate_model] unchanged: both runs return the same finite value. *)
Theorem nme_scale_invariant (img_file : string) (gt pred : list (R * R))
    (w h s : R) :
  List.length gt = 48%nat -> List.length pred = 48%nat ->
  0 < w -> 0 < h -> 0 < s ->
  exists x : R,
    value (evaluate_model_nme img_file (of_reals gt) (of_reals pred) w h)
    = Some (Fin x)
    /\ value (evaluate_model_nme img_file (of_reals (scale s gt))
                                 (of_reals (scale s pred)) (s * w) (s * h))
       = Some (Fin x).
Proof.
  intros Hgt Hpred Hw Hh Hs.
  eexists. split; [now apply evaluate_model_nme_value|].
  rewrite evaluate_model_nme_value;
    try (unfold scale; rewrite length_map; assumption);
    try (apply Rmult_lt_0_compat; assumption).
  rewrite point_distances_scale, normalization_factor_scale
    by (try lra; rewrite Hgt; lia).
  reflexivity.
Qed.

Lemma nme_scale_invariant_witness :
  exists x : R,
    value (evaluate_model_nme "cat.png" (of_reals (eye_sample 10 8))
                              (of_reals (eye_sample 10 7)) 640 480)
    = Some (Fin x)
    /\ value (evaluate_model_nme "cat.png"
                (of_reals (scale 3 (eye_sample 10 8)))
                (of_reals (scale 3 (eye_sample 10 7))) (3 * 640) (3 * 480))
       = Some (Fin x).
Proof.
  apply (nme_scale_invariant "cat.png" (eye_sample 10 8) (eye_sample 10 7)
           640 480 3); [reflexivity | reflexivity | lra | lra | lra].
Defined.

(** ** The three NME computations agree *)

Lemma nth_error_length {A : Type} (l : list A) (i : nat) (x : A) :
  nth_error l i = Some x -> (i < List.length l)%nat.
Proof. intros H. apply nth_error_Some. congruence. Qed.

Lemma array_sub_nonempty (a b diff : landmark_array) (out : list effect) :
  array_sub a b = Some (diff, out) -> (8 < List.length b)%nat -> diff <> [].
Proof.
  unfold array_sub. intros H Hb.
  destruct (List.length a =? List.length b)%nat eqn:E.
  - apply Nat.eqb_eq in E. injection H as <- _.
    destruct a as [|p a], b as [|q b]; simpl in *; try lia. discriminate.
  - destruct b as [|q b]; [simpl in Hb; lia|].
    destruct a as [|p [|p' a]]; try discriminate.
    + destruct b; [simpl in Hb; lia | discriminate].
    + injection H as <- _. discriminate.
    + destruct b; [simpl in Hb; lia | discriminate].
Qed.

Lemma analyze_nme_value (img_file : string) (gt pred : landmark_array)
    (w h : R) :
  value (analyze_nme img_file gt pred w h)
  = value (evaluate_model_nme img_file gt pred w h).
Proof.
  unfold analyze_nme, analyze_image, evaluate_model_nme. cbv zeta.
  set (gtn := div_column1 (div_column0 gt (Fin w)) (Fin h)).
  set (predn := div_column1 (div_column0 pred (Fin w)) (Fin h)).
  unfold get.
  destruct (nth_error gtn 8) as [g8|] eqn:E8; [|reflexivity].
  destruct (nth_error gtn 11) as [g11|] eqn:E11; [|reflexivity].
  rewrite !bind_ret_l.
  destruct (array_sub predn gtn) as [[diff out]|] eqn:Es; [|reflexivity].
  pose proof (array_sub_nonempty _ _ _ _ Es (nth_error_length _ _ _ E8)) as Hne.
  destruct diff as [|d diff]; [contradiction|]. reflexivity.
Qed.

Lemma validate_nme_eq (img_file : string) (gt pred : landmark_array)
    (w h : R) :
  validate_nme img_file gt pred w h = evaluate_model_nme img_file gt pred w h.
Proof. reflexivity. Qed.

(** C10.  On 48-point predicted and ground-truth landmarks and positive
    width and height, the NME computed in [evaluate_model], in the loop of
    [validate_on_val_set.py] and in [analyze_validation_results] is one and
    the same finite value. *)
Theorem nme_computations_agree (img_file : string) (gt pred : list (R * R))
    (w h : R) :
  List.length gt = 48%nat -> List.length pred = 48%nat -> 0 < w -> 0 < h ->
  exists x : R,
    value (evaluate_model_nme img_file (of_reals gt) (of_reals pred) w h)
    = Some (Fin x)
    /\ value (validate_nme img_file (of_reals gt) (of_reals pred) w h)
       = Some (Fin x)
    /\ value (analyze_nme img_file (of_reals gt) (of_reals pred) w h)
       = Some (Fin x).
Proof.
  intros Hgt Hpred Hw Hh.
  pose proof (evaluate_model_nme_value img_file w h Hw Hh gt pred Hgt Hpred)
    as Hv.
  eexists. split; [exact Hv|]. split.
  - rewrite validate_nme_eq. exact Hv.
  - rewrite analyze_nme_value. exact Hv.
Qed.

Lemma nme_computations_agree_witness :
  exists x : R,
    value (evaluate_model_nme "cat.png" (of_reals (eye_sample 10 8))
                              (of_reals (eye_sample 10 7)) 640 480)
    = Some (Fin x)
    /\ value (validate_nme "cat.png" (of_reals (eye_sample 10 8))
                           (of_reals (eye_sample 10 7)) 640 480)
       = Some (Fin x)
    /\ value (analyze_nme "cat.png" (of_reals (eye_sample 10 8))
                          (of_reals (eye_sample 10 7)) 640 480)
       = Some (Fin x).
Proof.
  apply (nme_computations_agree "cat.png" (eye_sample 10 8) (eye_sample 10 7)
           640 480); [reflexivity | reflexivity | lra | lra].
Defined.

(** ** Outliers *)

Lemma insert_sorted_le (a b : R) (t : list npfloat) :
  a <= b -> insert_sorted (Fin a) (Fin b :: t) = Fin a :: Fin b :: t.
Proof.
  intros Hab. cbn [insert_sorted sort_leb NP.leb].
  apply Rleb_true in Hab. now rewrite Hab.
Qed.

Lemma sample_values_sorted :
  np_sort sample_values = sample_values.
Proof.
  unfold sample_values, np_sort; cbn [fold_right].
  change (insert_sorted (Fin 5.0) []) with [Fin 5.0].
  rewrite !insert_sorted_le by lra. reflexivity.
Qed.

Lemma sample_values_q1 : np_percentile sample_values 25 = Fin 0.2.
Proof.
  unfold np_percentile. rewrite sample_values_sorted. unfold sample_values.
  cbn [List.length existsb is_nan orb].
  change ((25 * (Z.of_nat 5 - 1)) mod 100)%Z with 0%Z.
  change (Z.to_nat (25 * (Z.of_nat 5 - 1) / 100)) with 1%nat.
  change (Z.to_nat (Z.min (25 * (Z.of_nat 5 - 1) / 100 + 1) (Z.of_nat 5 - 1)))
    with 2%nat.
  cbn [nth]. unfold lerp, NP.geb; simpl. rcases; [lra|]. f_equal. lra.
Qed.

Lemma sample_values_q3 : np_percentile sample_values 75 = Fin 0.3.
Proof.
  unfold np_percentile. rewrite sample_values_sorted. unfold sample_values.
  cbn [List.length existsb is_nan orb].
  change ((75 * (Z.of_nat 5 - 1)) mod 100)%Z with 0%Z.
  change (Z.to_nat (75 * (Z.of_nat 5 - 1) / 100)) with 3%nat.
  change (Z.to_nat (Z.min (75 * (Z.of_nat 5 - 1) / 100 + 1) (Z.of_nat 5 - 1)))
    with 4%nat.
  cbn [nth]. unfold lerp, NP.geb; simpl. rcases; [lra|]. f_equal. lra.
Qed.

Lemma sample_values_threshold :
  (Fin 0.3 + Fin 1.5 * (Fin 0.3 - Fin 0.2))%np = Fin 0.45.
Proof. simpl. f_equal. lra. Qed.

Lemma sample_values_flagged :
  filter (fun x => (x >? Fin 0.45)%np) sample_values = [Fin 5.0].
Proof.
  unfold sample_values, NP.gtb; simpl. rcases; try lra; reflexivity.
Qed.

Lemma map_filter_comm {A B : Type} (f : A -> B) (p : B -> bool) (l : list A) :
  map f (filter (fun a => p (f a)) l) = filter p (map f l).
Proof.
  induction l as [|a l IH]; simpl; [reflexivity|].
  destruct (p (f a)); simpl; now rewrite IH.
Qed.

Lemma outliers_value (results : list result) :
  results <> [] ->
  value (outliers results)
  = Some (filter (fun r => (nme r >? outlier_threshold results)%np) results).
Proof. destruct results; [contradiction | reflexivity]. Qed.

(** ** Quartiles and outliers on finite NME values *)

Lemma insert_sorted_fin (x : R) (l : list R) :
  insert_sorted (Fin x) (map Fin l) = map Fin (insertR x l).
Proof.
  induction l as [|y l IH]; [reflexivity|].
  cbn [map insert_sorted insertR sort_leb NP.leb].
  destruct (Rleb x y); [reflexivity|]. cbn [map]. now rewrite IH.
Qed.

Lemma np_sort_fin (xs : list R) : np_sort (map Fin xs) = map Fin (sortR xs).
Proof.
  unfold np_sort, sortR. induction xs as [|x xs IH]; [reflexivity|].
  cbn [map fold_right]. rewrite IH. apply insert_sorted_fin.
Qed.

Lemma no_nan_fin (l : list R) : existsb is_nan (map Fin l) = false.
Proof. induction l as [|x l IH]; [reflexivity | exact IH]. Qed.

Lemma insertR_perm (x : R) (l : list R) : Permutation (x :: l) (insertR x l).
Proof.
  induction l as [|y l IH]; simpl; [reflexivity|].
  destruct (Rleb x y); [reflexivity|].
  rewrite perm_swap. now constructor.
Qed.

Lemma sortR_perm (l : list R) : Permutation l (sortR l).
Proof.
  induction l as [|x l IH]; simpl; [constructor|].
  rewrite <- insertR_perm. now constructor.
Qed.

Lemma insertR_sorted (x : R) (l : list R) :
  Sorted Rle l -> Sorted Rle (insertR x l).
Proof.
  induction 1 as [|y l Hs IH Hd]; simpl; [repeat constructor|].
  destruct (Rleb x y) eqn:E.
  - apply Rleb_true in E. constructor; [now constructor | now constructor].
  - apply Rleb_false in E. constructor; [exact IH|].
    destruct l as [|z l]; simpl; [constructor; lra|].
    destruct (Rleb x z); constructor; [lra|]. now inversion Hd.
Qed.

Lemma sortR_sorted (l : list R) : StronglySorted Rle (sortR l).
Proof.
  apply Sorted_StronglySorted; [intros a b c; apply Rle_trans|].
  induction l as [|x l IH]; simpl; [constructor | now apply insertR_sorted].
Qed.

Lemma sorted_nth_le (l : list R) (i j : nat) :
  StronglySorted Rle l -> (i <= j)%nat -> (j < List.length l)%nat ->
  nth i l 0 <= nth j l 0.
Proof.
  intros Hs. revert i j. induction Hs as [|x l Hs IH Hall]; intros i j Hij Hj.
  - simpl in Hj. lia.
  - destruct j as [|j].
    + assert (i = 0%nat) as -> by lia. lra.
    + destruct i as [|i].
      * simpl. rewrite Forall_forall in Hall. apply Hall, nth_In.
        simpl in Hj. lia.
      * simpl. apply IH; simpl in Hj; lia.
Qed.

Lemma nth_map_Fin (l : list R) (i : nat) :
  (i < List.length l)%nat -> nth i (map Fin l) NaN = Fin (nth i l 0).
Proof.
  intros Hi. rewrite (nth_indep _ NaN (Fin 0)) by (now rewrite length_map).
  apply (map_nth Fin).
Qed.

Lemma percentile_n_pos (arr : list R) :
  arr <> [] -> (1 <= Z.of_nat (List.length arr))%Z.
Proof.
  intros Hne.
  assert (H : List.length arr <> 0%nat)
    by (intros E; apply length_zero_iff_nil in E; contradiction).
  lia.
Qed.

Section Percentile.

Variables (arr : list R) (q : Z).
Hypothesis Hsorted : StronglySorted Rle arr.
Hypothesis Hne : arr <> [].
Hypothesis Hq : (0 <= q <= 100)%Z.

Let n : Z := Z.of_nat (List.length arr).
Let lower : nat := Z.to_nat (q * (n - 1) / 100).
Let upper : nat := Z.to_nat (Z.min (q * (n - 1) / 100 + 1) (n - 1)).

Lemma percentile_indices :
  (lower <= upper)%nat /\ (upper < List.length arr)%nat
  /\ (0 <= q * (n - 1) / 100)%Z /\ (q * (n - 1) / 100 <= n - 1)%Z.
Proof.
  pose proof (percentile_n_pos arr Hne) as Hn. fold n in Hn.
  assert (H0 : (0 <= q * (n - 1) / 100)%Z) by (apply Z.div_pos; nia).
  assert (H1 : (q * (n - 1) / 100 <= n - 1)%Z).
  { apply Z.div_le_upper_bound; nia. }
  unfold lower, upper. repeat split; try assumption; unfold n in *; lia.
Qed.

Lemma percentile_fraction :
  0 <= IZR ((q * (n - 1)) mod 100) / 100 < 1.
Proof.
  pose proof (Z.mod_pos_bound (q * (n - 1)) 100 ltac:(lia)) as [Hlo Hhi].
  apply IZR_le in Hlo. apply IZR_lt in Hhi. split.
  - apply Rmult_le_pos; lra.
  - apply Rmult_lt_reg_r with 100; [lra|].
    unfold Rdiv. rewrite Rmult_assoc, Rinv_l by lra. lra.
Qed.

(** The interpolated value lies between its two neighbours. *)
Lemma percentileR_between :
  nth lower arr 0 <= percentileR arr q <= nth upper arr 0.
Proof.
  destruct percentile_indices as (Hlu & Hu & _).
  pose proof (sorted_nth_le arr lower upper Hsorted Hlu Hu) as Hle.
  pose proof percentile_fraction as [Ht0 Ht1].
  unfold percentileR. cbv zeta. fold n. fold lower upper.
  split; nra.
Qed.

Lemma np_percentile_fin (xs : list R) :
  sortR xs = arr ->
  np_percentile (map Fin xs) q = Fin (percentileR arr q).
Proof.
  intros Hxs. unfold np_percentile. cbv zeta.
  rewrite np_sort_fin, Hxs, no_nan_fin, length_map. fold n.
  destruct percentile_indices as (Hlu & Hu & _).
  fold lower upper. rewrite !nth_map_Fin by lia.
  unfold lerp, NP.geb, percentileR. cbv zeta. fold n. fold lower upper.
  cbn [NP.leb NP.sub NP.add NP.mul NP.opp].
  destruct (Rleb 0.5 (IZR ((q * (n - 1)) mod 100) / 100)); f_equal; ring.
Qed.

End Percentile.

Lemma quartiles_ordered (arr : list R) :
  StronglySorted Rle arr -> arr <> [] ->
  percentileR arr 25 <= percentileR arr 75.
Proof.
  intros Hs Hne.
  pose proof (percentile_n_pos arr Hne) as Hn.
  destruct (percentile_indices arr 25 Hne ltac:(lia)) as (Hlu1 & Hu1 & H01 & H11).
  destruct (percentile_indices arr 75 Hne ltac:(lia)) as (Hlu3 & Hu3 & H03 & H13).
  pose proof (percentileR_between arr 25 Hs Hne ltac:(lia)) as [_ Hhi1].
  pose proof (percentileR_between arr 75 Hs Hne ltac:(lia)) as [Hlo3 _].
  set (n := Z.of_nat (List.length arr)) in *.
  destruct (Z.eq_dec (25 * (n - 1) / 100) (75 * (n - 1) / 100)) as [E | E].
  - unfold percentileR. cbv zeta. fold n. rewrite <- E.
    set (i := Z.to_nat (25 * (n - 1) / 100)) in *.
    set (j := Z.to_nat (Z.min (25 * (n - 1) / 100 + 1) (n - 1))) in *.
    assert (Hd : nth i arr 0 <= nth j arr 0)
      by (apply sorted_nth_le; assumption).
    assert (Ht : IZR ((25 * (n - 1)) mod 100) <= IZR ((75 * (n - 1)) mod 100)).
    { apply IZR_le.
      pose proof (Z.div_mod (25 * (n - 1)) 100 ltac:(lia)).
      pose proof (Z.div_mod (75 * (n - 1)) 100 ltac:(lia)). lia. }
    nra.
  - assert (Hlt : (25 * (n - 1) / 100 < 75 * (n - 1) / 100)%Z).
    { assert ((25 * (n - 1) / 100 <= 75 * (n - 1) / 100)%Z)
        by (apply Z.div_le_mono; lia). lia. }
    apply Rle_trans with
      (nth (Z.to_nat (Z.min (25 * (n - 1) / 100 + 1) (n - 1))) arr 0);
      [exact Hhi1|].
    apply Rle_trans with (nth (Z.to_nat (75 * (n - 1) / 100)) arr 0);
      [|exact Hlo3].
    apply sorted_nth_le; [assumption | lia | lia].
Qed.

Lemma percentileR_of_constant (arr : list R) (q : Z) (c : R) :
  (forall x, In x arr -> x = c) -> arr <> [] -> (0 <= q <= 100)%Z ->
  percentileR arr q = c.
Proof.
  intros Hc Hne Hq.
  destruct (percentile_indices arr q Hne Hq) as (Hlu & Hu & _).
  unfold percentileR. cbv zeta.
  rewrite (Hc (nth (Z.to_nat (Z.min _ _)) arr 0)) by (apply nth_In; lia).
  rewrite (Hc (nth (Z.to_nat (_ / 100)) arr 0)) by (apply nth_In; lia).
  ring.
Qed.


(** C9.  On a non-empty batch, an entry is reported as an outlier if and
    only if its NME is strictly above Q3 + 1.5 * (Q3 - Q1), with Q1 and Q3
    the 25th and 75th percentiles of all NME values of the batch: on finite
    values, the values of the batch in ascending order, read at the
    positions a quarter and three quarters of the way from the first to
    the last, with linear interpolation between neighbours.  When the NME
    values are 0.1, 0.2, 0.2, 0.3, 5.0, Q1 is 0.2, Q3 is 0.3, the threshold
    is 0.45 and the only outlier is the entry with NME 5.0. *)
Theorem outlier_rule (results : list result) :
  results <> [] ->
  let q1 := np_percentile (map nme results) 25 in
  let q3 := np_percentile (map nme results) 75 in
  exists flagged : list result,
    value (outliers results) = Some flagged
    /\ (forall r : result,
          In r flagged
          <-> In r results /\ (nme r >? q3 + Fin 1.5 * (q3 - q1))%np = true)
    /\ (forall xs : list R, map nme results = map Fin xs ->
        exists arr : list R,
          Permutation xs arr /\ StronglySorted Rle arr
          /\ q1 = Fin (percentileR arr 25) /\ q3 = Fin (percentileR arr 75))
    /\ (forall a b x : R, forall r : result,
          q1 = Fin a -> q3 = Fin b -> In r results -> nme r = Fin x ->
          (In r flagged <-> b + 1.5 * (b - a) < x))
    /\ (map nme results = sample_values ->
        q1 = Fin 0.2 /\ q3 = Fin 0.3
        /\ (q3 + Fin 1.5 * (q3 - q1))%np = Fin 0.45
        /\ map nme flagged = [Fin 5.0]).
Proof.
  intros Hne q1 q3.
  exists (filter (fun r => (nme r >? outlier_threshold results)%np) results).
  split; [now apply outliers_value|].
  assert (Hiff : forall r : result,
            In r (filter (fun r => (nme r >? outlier_threshold results)%np)
                         results)
            <-> In r results /\ (nme r >? q3 + Fin 1.5 * (q3 - q1))%np = true).
  { intros r. apply filter_In. }
  split; [exact Hiff|]. split.
  { intros xs Hxs.
    assert (Hxne : xs <> []).
    { intros E. rewrite E in Hxs.
      destruct results; [contradiction | discriminate]. }
    pose proof (sortR_perm xs) as Hp.
    assert (Hane : sortR xs <> []).
    { intros E. rewrite E in Hp. apply Permutation_sym, Permutation_nil in Hp.
      contradiction. }
    exists (sortR xs). split; [exact Hp|]. split; [apply sortR_sorted|].
    unfold q1, q3. rewrite Hxs. split;
      apply np_percentile_fin;
      solve [apply sortR_sorted | assumption | lia | reflexivity]. }
  split.
  - intros a b x r Ha Hb Hin Hx. rewrite Hiff, Ha, Hb, Hx.
    unfold NP.gtb; simpl. rewrite Rltb_true. split.
    + intros [_ H]. lra.
    + intros H. split; [assumption | lra].
  - intros Hvals.
    assert (H1 : q1 = Fin 0.2)
      by (unfold q1; rewrite Hvals; apply sample_values_q1).
    assert (H3 : q3 = Fin 0.3)
      by (unfold q3; rewrite Hvals; apply sample_values_q3).
    assert (Ht : (q3 + Fin 1.5 * (q3 - q1))%np = Fin 0.45)
      by (rewrite H1, H3; apply sample_values_threshold).
    repeat split; try assumption.
    rewrite (map_filter_comm nme (fun x => (x >? outlier_threshold results)%np)).
    unfold outlier_threshold. cbv zeta. fold q1 q3.
    rewrite Ht, Hvals. apply sample_values_flagged.
Qed.

Lemma outlier_rule_witness :
  sample_batch <> []
  /\ exists flagged : list result,
       value (outliers sample_batch) = Some flagged
       /\ map nme flagged = [Fin 5.0].
Proof.
  assert (Hne : sample_batch <> []) by discriminate.
  split; [exact Hne|].
  destruct (outlier_rule sample_batch Hne) as (flagged & Hv & _ & _ & _ & Hs).
  exists flagged. split; [exact Hv|]. now apply Hs.
Defined.

(** ** The arccosine input *)




(** * Properties of the rest of the pipeline *)

(** ** Strings *)

Lemma py_replace_example :
  py_replace "a.png.png" ".png" "_x.png" = "a_x.png_x.png"%string
  /\ vis_path "dir/cat.png" = "dir/cat_landmarks.png"%string
  /\ vis_path "dir/cat.jpg" = "dir/cat_landmarks.jpg"%string
  /\ vis_path "dir/cat.jpeg" = "dir/cat.jpeg"%string
  /\ path_join "data" "images" = "data/images"%string
  /\ evaluate_accepts "cat_landmarks.png" = false
  /\ evaluate_accepts "cat_landmarks_2.png" = true
  /\ dataset_accepts "cat_landmarks_2.png" = false.
Proof. vm_compute. repeat split. Qed.

Lemma append_nil_r (s : string) : (s ++ "")%string = s.
Proof. induction s as [|c s IH]; simpl; [reflexivity | now rewrite IH]. Qed.

Lemma append_assoc (a b c : string) :
  ((a ++ b) ++ c)%string = (a ++ (b ++ c))%string.
Proof. induction a as [|x a IH]; simpl; [reflexivity | now rewrite IH]. Qed.

Lemma length_append (a b : string) :
  String.length (a ++ b) = (String.length a + String.length b)%nat.
Proof. induction a as [|x a IH]; simpl; [reflexivity | now rewrite IH]. Qed.

Lemma prefix_spec (a s : string) :
  prefix a s = true <-> exists u, s = (a ++ u)%string.
Proof.
  revert s. induction a as [|x a IH]; intros s; simpl.
  - destruct s; split; eauto.
  - destruct s as [|y s]; simpl.
    + split; [discriminate | intros [u Hu]; discriminate].
    + destruct (Ascii.ascii_dec x y) as [-> | Hxy].
      * rewrite IH. split; intros [u Hu]; exists u; congruence.
      * split; [discriminate | intros [u Hu]; congruence].
Qed.

Lemma endswith_spec (suffix s : string) :
  endswith suffix s = true <-> exists t, s = (t ++ suffix)%string.
Proof.
  induction s as [|c s IH]; cbn [endswith].
  - rewrite orb_false_r, String.eqb_eq. split.
    + intros <-. now exists ""%string.
    + intros [[|x t] Ht]; simpl in Ht; [congruence | discriminate].
  - rewrite orb_true_iff, String.eqb_eq, IH. split.
    + intros [<- | [t ->]]; [now exists ""%string | now exists (String c t)].
    + intros [[|x t] Ht]; simpl in Ht; [now left | right].
      injection Ht as -> ->. now exists t.
Qed.

Lemma contains_spec (sub s : string) :
  contains sub s = true <-> exists t u, s = (t ++ sub ++ u)%string.
Proof.
  induction s as [|c s IH].
  - cbn [contains]. rewrite orb_false_r, prefix_spec. split.
    + intros [u Hu]. now exists ""%string, u.
    + intros ([|x t] & u & Hu); simpl in Hu; [now exists u | discriminate].
  - cbn [contains]. rewrite orb_true_iff, prefix_spec, IH. split.
    + intros [[u Hu] | (t & u & ->)].
      * now exists ""%string, u.
      * now exists (String c t), u.
    + intros ([|x t] & u & Hu); simpl in Hu.
      * left. now exists u.
      * right. injection Hu as -> ->. now exists t, u.
Qed.

Lemma prefix_too_short (old t : string) :
  (String.length t < String.length old)%nat -> prefix old t = false.
Proof.
  intros Hlen. destruct (prefix old t) eqn:E; [|reflexivity].
  apply prefix_spec in E as [u ->]. rewrite length_append in Hlen. lia.
Qed.

Lemma prefix_app_long (old t u : string) :
  (String.length old <= String.length t)%nat ->
  prefix old (t ++ u) = prefix old t.
Proof.
  revert t. induction old as [|x old IH]; intros t Hlen.
  - destruct t; simpl; [destruct u|]; reflexivity.
  - destruct t as [|y t]; simpl in Hlen; [lia|]. simpl.
    destruct (Ascii.ascii_dec x y); [apply IH; lia | reflexivity].
Qed.

(** A suffix that no occurrence of [old] can reach into passes through a
    replacement on its own. *)
Lemma replace_from_suffix (old new u r : string) :
  (forall t, t <> ""%string -> (String.length t < String.length old)%nat ->
             prefix old (t ++ u) = false) ->
  replace_from old new 0 u = r ->
  forall (t : string) (skip : nat),
    (skip <= String.length t)%nat ->
    replace_from old new skip (t ++ u)
    = (replace_from old new skip t ++ r)%string.
Proof.
  intros Hcross Hu t. induction t as [|c t IH]; intros skip Hskip.
  - simpl in Hskip. assert (skip = 0%nat) as -> by lia. exact Hu.
  - destruct skip as [|k].
    + cbn [append replace_from].
      destruct (Nat.le_gt_cases (String.length old) (String.length (String c t)))
        as [Hlong | Hshort].
      * change (String c (t ++ u)) with (String c t ++ u)%string.
        rewrite prefix_app_long by assumption.
        destruct (prefix old (String c t)) eqn:E.
        -- rewrite IH by (simpl in Hlong; lia). now rewrite append_assoc.
        -- rewrite IH by lia. reflexivity.
      * change (String c (t ++ u)) with (String c t ++ u)%string.
        rewrite Hcross by (assumption || discriminate).
        rewrite prefix_too_short by assumption.
        rewrite IH by lia. reflexivity.
    + cbn [append replace_from]. apply IH. simpl in Hskip. lia.
Qed.

Lemma replace_from_absent (old new s : string) :
  contains old s = false -> replace_from old new 0 s = s.
Proof.
  induction s as [|c s IH]; [reflexivity|].
  cbn [contains replace_from]. intros H.
  apply orb_false_iff in H as [Hp Hc]. rewrite Hp. now rewrite IH.
Qed.

Ltac no_crossing :=
  let t := fresh "t" in
  let Hne := fresh "Hne" in
  let Hlen := fresh "Hlen" in
  let E := fresh "E" in
  let u := fresh "u" in
  let Hu := fresh "Hu" in
  intros t Hne Hlen;
  destruct t as [|? [|? [|? [|? t]]]];
  [ contradiction | | | | simpl in Hlen; lia ];
  (match goal with |- ?p = false => destruct p eqn:E; [|reflexivity] end;
   apply prefix_spec in E as [u Hu]; simpl in Hu; congruence).

Lemma png_no_crossing :
  forall t, t <> ""%string -> (String.length t < String.length ".png")%nat ->
            prefix ".png" (t ++ ".png") = false.
Proof. no_crossing. Qed.

Lemma jpg_no_crossing :
  forall t, t <> ""%string -> (String.length t < String.length ".jpg")%nat ->
            prefix ".jpg" (t ++ "_landmarks.png") = false.
Proof. no_crossing. Qed.

Lemma replace_png_suffix (new t : string) :
  py_replace (t ++ ".png") ".png" new
  = (py_replace t ".png" new ++ new)%string.
Proof.
  unfold py_replace.
  apply (replace_from_suffix ".png" new ".png" new png_no_crossing);
    [|lia].
  cbn. now rewrite append_nil_r.
Qed.

Lemma replace_jpg_keeps_landmarks (new t : string) :
  py_replace (t ++ "_landmarks.png") ".jpg" new
  = (py_replace t ".jpg" new ++ "_landmarks.png")%string.
Proof.
  unfold py_replace.
  apply (replace_from_suffix ".jpg" new "_landmarks.png" "_landmarks.png"
           jpg_no_crossing); [reflexivity | lia].
Qed.

Lemma basename_endswith (u p : string) :
  contains "/" u = false -> endswith u p = true ->
  endswith u (basename p) = true.
Proof.
  intros Hu. induction p as [|c p IH]; [trivial|].
  cbn [basename endswith]. intros H.
  assert (Hneq : String.eqb (String c p) u = true ->
                 contains "/" p = false /\ Ascii.eqb c "/"%char = false).
  { intros E. apply String.eqb_eq in E. subst u.
    cbn [contains] in Hu. apply orb_false_iff in Hu as [Hp Hc].
    split; [exact Hc|].
    destruct (Ascii.eqb_spec c "/"%char) as [->|]; [|reflexivity].
    assert (Ht : prefix "/" (String "/" p) = true)
      by (apply prefix_spec; now exists p).
    rewrite Ht in Hp. discriminate Hp. }
  destruct (contains "/" p) eqn:Ec.
  - apply IH. apply orb_true_iff in H as [E | E]; [|exact E].
    destruct (Hneq E) as [? _]. discriminate.
  - destruct (Ascii.eqb c "/"%char) eqn:Es.
    + apply orb_true_iff in H as [E | E]; [|exact E].
      destruct (Hneq E) as [_ ?]. discriminate.
    + exact H.
Qed.

Lemma landmarks_suffix_rejected (f : string) :
  endswith "_landmarks.png" f = true ->
  evaluate_accepts f = false /\ dataset_accepts f = false.
Proof.
  intros H. split.
  - unfold evaluate_accepts. rewrite H. simpl. now rewrite andb_false_r.
  - unfold dataset_accepts.
    assert (Hc : contains "_landmarks" f = true).
    { apply endswith_spec in H as [t ->]. apply contains_spec.
      now exists t, ".png"%string. }
    rewrite Hc. simpl. now rewrite andb_false_r.
Qed.

Lemma comparison_suffix_rejected (f : string) :
  endswith "_comparison.png" f = true ->
  evaluate_accepts f = false /\ dataset_accepts f = false.
Proof.
  intros H. split.
  - unfold evaluate_accepts. rewrite H. now rewrite andb_false_r.
  - unfold dataset_accepts.
    assert (Hc : contains "_comparison" f = true).
    { apply endswith_spec in H as [t ->]. apply contains_spec.
      now exists t, ".png"%string. }
    rewrite Hc. now rewrite andb_false_r.
Qed.

Lemma vis_path_png (image_path : string) :
  endswith ".png" image_path = true ->
  endswith "_landmarks.png" (vis_path image_path) = true.
Proof.
  intros H. apply endswith_spec in H as [t ->]. unfold vis_path.
  rewrite replace_png_suffix, replace_jpg_keeps_landmarks.
  apply endswith_spec. eauto.
Qed.

Lemma comparison_path_png (image_path : string) :
  endswith ".png" image_path = true ->
  endswith "_comparison.png" (comparison_path image_path) = true.
Proof.
  intros H. apply endswith_spec in H as [t ->]. unfold comparison_path.
  rewrite replace_png_suffix. apply endswith_spec. eauto.
Qed.

(** X1.  The figures written for a [.png] image, by [predict_landmarks]
    with [save_vis] and by [compare_prediction_gt], carry names ending in
    [_landmarks.png] and [_comparison.png]: neither the evaluation nor the
    dataset ever selects them as input images. *)
Theorem saved_figures_never_selected (image_path : string) :
  endswith ".png" image_path = true ->
  evaluate_accepts (basename (vis_path image_path)) = false
  /\ dataset_accepts (basename (vis_path image_path)) = false
  /\ evaluate_accepts (basename (comparison_path image_path)) = false
  /\ dataset_accepts (basename (comparison_path image_path)) = false.
Proof.
  intros H.
  pose proof (landmarks_suffix_rejected (basename (vis_path image_path))
                (basename_endswith "_landmarks.png" _ eq_refl (vis_path_png _ H))) as [? ?].
  pose proof (comparison_suffix_rejected
                (basename (comparison_path image_path))
                (basename_endswith "_comparison.png" _ eq_refl
                   (comparison_path_png _ H)))
    as [? ?].
  auto.
Qed.

Lemma saved_figures_never_selected_witness :
  evaluate_accepts (basename (vis_path "data/images/cat.png")) = false
  /\ dataset_accepts (basename (vis_path "data/images/cat.png")) = false
  /\ evaluate_accepts (basename (comparison_path "data/images/cat.png")) = false
  /\ dataset_accepts (basename (comparison_path "data/images/cat.png")) = false.
Proof. apply (saved_figures_never_selected "data/images/cat.png"). reflexivity. Defined.

(** X2.  When the image path mentions neither [.png] nor [.jpg], the path
    [predict_landmarks] saves its figure under is the image path itself. *)
Theorem vis_path_is_image_path (image_path : string) :
  contains ".png" image_path = false ->
  contains ".jpg" image_path = false ->
  vis_path image_path = image_path.
Proof.
  intros Hpng Hjpg. unfold vis_path, py_replace.
  rewrite (replace_from_absent ".png" _ _ Hpng).
  apply replace_from_absent, Hjpg.
Qed.

Lemma vis_path_is_image_path_witness : vis_path "cat.jpeg" = "cat.jpeg"%string.
Proof. apply vis_path_is_image_path; reflexivity. Defined.

(** X3.  Every file the dataset selects is selected by the evaluation
    too. *)
Theorem dataset_files_are_evaluated (f : string) :
  dataset_accepts f = true -> evaluate_accepts f = true.
Proof.
  unfold dataset_accepts, evaluate_accepts. intros H.
  apply andb_true_iff in H as [H Hc]. apply andb_true_iff in H as [Hp Hl].
  apply negb_true_iff in Hc, Hl. rewrite Hp. simpl.
  destruct (endswith "_landmarks.png" f) eqn:E1.
  - destruct (landmarks_suffix_rejected f E1) as [_ Hd].
    unfold dataset_accepts in Hd. rewrite Hp, Hl, Hc in Hd. discriminate Hd.
  - destruct (endswith "_comparison.png" f) eqn:E2; [|reflexivity].
    destruct (comparison_suffix_rejected f E2) as [_ Hd].
    unfold dataset_accepts in Hd. rewrite Hp, Hl, Hc in Hd. discriminate Hd.
Qed.

Lemma dataset_files_are_evaluated_witness :
  evaluate_accepts "00000001_000.png" = true.
Proof. apply dataset_files_are_evaluated. reflexivity. Defined.

(** The converse fails: the evaluation takes a name that only mentions
    [_landmarks]. *)
Example evaluated_but_not_in_dataset :
  evaluate_accepts "cat_landmarks_2.png" = true
  /\ dataset_accepts "cat_landmarks_2.png" = false.
Proof. split; reflexivity. Qed.

(** ** The predictor's post-processing and the training target *)

Lemma value_seq {A : Type} (m : M unit) (k : M A) (out : list effect) :
  m = Some (tt, out) -> value (m ;;; k) = value k.
Proof. intros ->. unfold bind, value. destruct k as [[a o]|]; reflexivity. Qed.

Lemma visualize_landmarks_returns (image_path : string)
    (landmarks : landmark_array) (save_path : option string) :
  exists out, visualize_landmarks image_path landmarks save_path = Some (tt, out).
Proof. destruct save_path as [[|c p]|]; simpl; unfold print; eauto. Qed.

Lemma pair_up_flatten (a : landmark_array) : pair_up (flatten a) = a.
Proof.
  induction a as [|[x y] a IH]; simpl; [reflexivity | now rewrite IH].
Qed.

Lemma flatten_length (a : landmark_array) :
  List.length (flatten a) = (2 * List.length a)%nat.
Proof. induction a as [|p a IH]; simpl; [reflexivity | rewrite IH; lia]. Qed.

Lemma pair_up_even (n : nat) (l : list npfloat) :
  List.length l = (2 * n)%nat ->
  List.length (pair_up l) = n /\ flatten (pair_up l) = l.
Proof.
  revert l. induction n as [|n IH]; intros l Hl.
  - destruct l; [now split | discriminate].
  - destruct l as [|x [|y l]]; simpl in Hl; try lia.
    destruct (IH l ltac:(lia)) as [H1 H2]. simpl. now rewrite H1, H2.
Qed.

Lemma mul_columns_fin (w h : R) (pts : list (R * R)) :
  mul_column1 (mul_column0 (of_reals pts) (Fin w)) (Fin h)
  = of_reals (map (fun p => (fst p * w, snd p * h)) pts).
Proof.
  unfold mul_column1, mul_column0, of_reals. rewrite !map_map.
  apply map_ext. intros [x y]. reflexivity.
Qed.

Lemma predict_landmarks_value (predictions : list npfloat)
    (image_path : string) (original_size : R * R) (save_vis : bool) :
  value (predict_landmarks predictions image_path original_size save_vis)
  = if (List.length predictions =? 96)%nat
    then Some (mul_column1 (mul_column0 (pair_up predictions)
                                        (Fin (fst original_size)))
                           (Fin (snd original_size)),
               pair_up predictions)
    else None.
Proof.
  unfold predict_landmarks, reshape_48_2.
  destruct (List.length predictions =? 96)%nat; [|reflexivity].
  rewrite bind_ret_l. cbv zeta.
  destruct save_vis.
  - destruct (visualize_landmarks_returns image_path
                (mul_column1 (mul_column0 (pair_up predictions)
                                          (Fin (fst original_size)))
                             (Fin (snd original_size)))
                (Some (vis_path image_path))) as [out Hout].
    now rewrite (value_seq _ _ out Hout).
  - now rewrite bind_ret_l.
Qed.

Lemma pair_up_map_Fin (rs : list R) :
  pair_up (map Fin rs) = of_reals (pair_upR rs).
Proof.
  enough (H : forall n rs, (List.length rs <= n)%nat ->
                           pair_up (map Fin rs) = of_reals (pair_upR rs))
    by (apply (H (List.length rs)); lia).
  intros n. induction n as [|n IH]; intros l Hl.
  - destruct l; [reflexivity | simpl in Hl; lia].
  - destruct l as [|x [|y l]]; try reflexivity.
    simpl in Hl. simpl. rewrite IH by lia. reflexivity.
Qed.

Lemma pair_upR_Forall (P : R -> Prop) (rs : list R) :
  Forall P rs -> Forall (fun p => P (fst p) /\ P (snd p)) (pair_upR rs).
Proof.
  enough (H : forall n rs, (List.length rs <= n)%nat -> Forall P rs ->
                Forall (fun p => P (fst p) /\ P (snd p)) (pair_upR rs))
    by (apply (H (List.length rs)); lia).
  intros n. induction n as [|n IH]; intros l Hl HP.
  - destruct l; [constructor | simpl in Hl; lia].
  - destruct l as [|x [|y l]]; try constructor.
    + inversion HP as [|? ? Hx HP']; subst.
      inversion HP' as [|? ? Hy HP'']; subst. now split.
    + apply IH; [simpl in Hl; lia|].
      inversion HP as [|? ? Hx HP']; subst. now inversion HP'.
Qed.

Lemma pair_upR_length (n : nat) (rs : list R) :
  List.length rs = (2 * n)%nat -> List.length (pair_upR rs) = n.
Proof.
  revert rs. induction n as [|n IH]; intros l Hl.
  - destruct l; [reflexivity | discriminate].
  - destruct l as [|x [|y l]]; simpl in Hl; try lia.
    simpl. rewrite IH by lia. reflexivity.
Qed.

(** X4.  [predict_landmarks] raises unless the network returns exactly 96
    values; with 96 values it returns 48 pixel-space landmarks and the 48
    normalized ones, which flatten back to the network's output. *)
Theorem predict_landmarks_shape (predictions : list npfloat)
    (image_path : string) (original_size : R * R) (save_vis : bool) :
  (List.length predictions <> 96%nat ->
   predict_landmarks predictions image_path original_size save_vis = None)
  /\ (List.length predictions = 96%nat ->
      exists landmarks landmarks_normalized : landmark_array,
        value (predict_landmarks predictions image_path original_size save_vis)
        = Some (landmarks, landmarks_normalized)
        /\ List.length landmarks = 48%nat
        /\ List.length landmarks_normalized = 48%nat
        /\ flatten landmarks_normalized = predictions
        /\ landmarks
           = map (fun p => ((fst p * Fin (fst original_size))%np,
                            (snd p * Fin (snd original_size))%np))
                 landmarks_normalized).
Proof.
  split.
  - intros Hlen. unfold predict_landmarks, reshape_48_2.
    apply Nat.eqb_neq in Hlen. now rewrite Hlen.
  - intros Hlen. rewrite predict_landmarks_value, Hlen, Nat.eqb_refl.
    destruct (pair_up_even 48 predictions Hlen) as [H1 H2].
    do 2 eexists. split; [reflexivity|].
    unfold mul_column1, mul_column0. rewrite !length_map, map_map.
    repeat split; assumption.
Qed.

Lemma predict_landmarks_shape_witness :
  predict_landmarks (repeat (Fin 0) 95) "cat.png" (640, 480) false = None.
Proof.
  apply (predict_landmarks_shape (repeat (Fin 0) 95) "cat.png" (640, 480) false).
  rewrite repeat_length. discriminate.
Defined.

(** X5.  When the network's 96 outputs lie in [0, 1] (its last layer is a
    sigmoid), every predicted pixel landmark lies inside the image:
    0 <= x <= width and 0 <= y <= height. *)
Theorem predicted_landmarks_inside_image (rs : list R) (image_path : string)
    (w h : R) (save_vis : bool) :
  List.length rs = 96%nat -> Forall (fun r => 0 <= r <= 1) rs ->
  0 <= w -> 0 <= h ->
  exists pts : list (R * R),
    value (predict_landmarks (map Fin rs) image_path (w, h) save_vis)
    = Some (of_reals pts, of_reals (pair_upR rs))
    /\ List.length pts = 48%nat
    /\ Forall (fun p => 0 <= fst p <= w /\ 0 <= snd p <= h) pts.
Proof.
  intros Hlen Hrs Hw Hh.
  exists (map (fun p => (fst p * w, snd p * h)) (pair_upR rs)).
  split; [|split].
  - rewrite predict_landmarks_value, length_map, Hlen, Nat.eqb_refl.
    rewrite pair_up_map_Fin. cbn [fst snd]. now rewrite mul_columns_fin.
  - rewrite length_map. now apply pair_upR_length.
  - apply Forall_map.
    apply (pair_upR_Forall (fun r => 0 <= r <= 1)) in Hrs.
    eapply Forall_impl; [|exact Hrs].
    intros [x y] [Hx Hy]; cbn [fst snd] in *. split; split; nra.
Qed.

Lemma predicted_landmarks_inside_image_witness :
  exists pts : list (R * R),
    value (predict_landmarks (map Fin (repeat (1 / 2) 96)) "cat.png"
                             (640, 480) true)
    = Some (of_reals pts, of_reals (pair_upR (repeat (1 / 2) 96)))
    /\ List.length pts = 48%nat
    /\ Forall (fun p => 0 <= fst p <= 640 /\ 0 <= snd p <= 480) pts.
Proof.
  apply (predicted_landmarks_inside_image (repeat (1 / 2) 96) "cat.png"
           640 480 true); [reflexivity | | lra | lra].
  apply Forall_forall. intros r Hr. apply repeat_spec in Hr. subst r. lra.
Defined.

(** X7.  [calculate_pain_score] never reaches its classifiers:
    [predict_landmarks] returns two values and the call unpacks three, so
    that the function raises for every platform, image path, model path
    and checkpoint, network output and image size. *)
Theorem calculate_pain_score_always_raises (L : libm)
    (image_path model_path : string)
    (checkpoint : option (M (option npfloat)))
    (predictions : list float32) (original_size : Z * Z) :
  calculate_pain_score L image_path model_path checkpoint predictions
                       original_size = None.
Proof.
  unfold calculate_pain_score.
  apply bind_raises. intros _. apply bind_raises. intros result. reflexivity.
Qed.

(** ** More on the NME *)

Lemma sumR_nonneg (l : list R) : Forall (fun x => 0 <= x) l -> 0 <= sumR l.
Proof.
  induction 1 as [|x l Hx _ IH]; simpl; [lra | lra].
Qed.

Lemma point_distances_nonneg (w h : R) (pred gt : list (R * R)) :
  Forall (fun x => 0 <= x) (point_distances w h pred gt).
Proof.
  unfold point_distances. apply Forall_map, Forall_forall.
  intros pg _. apply dist_nonneg.
Qed.

(** X8.  On well-formed inputs the NME of [evaluate_model] is never
    negative, and it is 0 when the predicted landmarks equal the ground
    truth. *)
Theorem nme_nonneg_zero_when_exact (img_file : string)
    (gt pred : list (R * R)) (w h : R) :
  List.length gt = 48%nat -> List.length pred = 48%nat -> 0 < w -> 0 < h ->
  exists x : R,
    value (evaluate_model_nme img_file (of_reals gt) (of_reals pred) w h)
    = Some (Fin x)
    /\ 0 <= x
    /\ (pred = gt -> x = 0).
Proof.
  intros Hgt Hpred Hw Hh.
  eexists. split; [now apply evaluate_model_nme_value|].
  pose proof (normalization_factor_pos w h gt) as Hf.
  pose proof (point_distances_nonneg w h pred gt) as Hnn.
  pose proof (sumR_nonneg _ Hnn) as Hs.
  assert (Hlen : INR (List.length (point_distances w h pred gt)) = 48).
  { rewrite (point_distances_length w h gt pred Hgt Hpred). simpl. lra. }
  unfold meanR. rewrite Hlen. split.
  - apply Rmult_le_pos; [lra | apply Rlt_le, Rinv_0_lt_compat, Hf].
  - intros ->. rewrite point_distances_same, sumR_zero.
    unfold Rdiv. ring.
Qed.

Lemma nme_nonneg_zero_when_exact_witness :
  exists x : R,
    value (evaluate_model_nme "cat.png" (of_reals (eye_sample 10 8))
                              (of_reals (eye_sample 10 7)) 640 480)
    = Some (Fin x)
    /\ 0 <= x
    /\ (eye_sample 10 7 = eye_sample 10 8 -> x = 0).
Proof.
  apply (nme_nonneg_zero_when_exact "cat.png" (eye_sample 10 8)
           (eye_sample 10 7) 640 480); [reflexivity | reflexivity | lra | lra].
Defined.

Lemma sumR_const {A : Type} (d : R) (l : list A) :
  sumR (map (fun _ => d) l) = INR (List.length l) * d.
Proof.
  induction l as [|x l IH]; [simpl; ring|].
  cbn [map sumR fold_right List.length]. fold (sumR (map (fun _ => d) l)).
  rewrite IH, S_INR. ring.
Qed.

Lemma point_distances_shift (w h dx dy : R) (gt : list (R * R)) :
  point_distances w h (shift dx dy gt) gt
  = map (fun _ => R_sqrt.sqrt (dx / w * (dx / w) + dy / h * (dy / h))) gt.
Proof.
  unfold point_distances, shift.
  induction gt as [|p gt IH]; [reflexivity|]. simpl. rewrite IH. f_equal.
  unfold dist, normalize; simpl. f_equal. unfold Rdiv. ring.
Qed.

(** X9.  A prediction that is the ground truth moved by one vector
    [(dx, dy)] is not forgiven: its NME is the length of the normalized
    vector [(dx / width, dy / height)] over the normalization factor. *)
Theorem nme_of_shift (img_file : string) (gt : list (R * R))
    (w h dx dy : R) :
  List.length gt = 48%nat -> 0 < w -> 0 < h ->
  value (evaluate_model_nme img_file (of_reals gt)
                            (of_reals (shift dx dy gt)) w h)
  = Some (Fin (R_sqrt.sqrt (dx / w * (dx / w) + dy / h * (dy / h))
               / normalization_factor w h gt)).
Proof.
  intros Hgt Hw Hh.
  rewrite (evaluate_model_nme_value img_file w h Hw Hh gt (shift dx dy gt) Hgt)
    by (unfold shift; now rewrite length_map).
  rewrite point_distances_shift. unfold meanR.
  rewrite sumR_const, length_map, Hgt.
  set (d := R_sqrt.sqrt (dx / w * (dx / w) + dy / h * (dy / h))).
  assert (H48 : INR 48 = 48) by (simpl; lra). rewrite H48.
  replace (48 * d / 48) with d by (field; lra). reflexivity.
Qed.

Lemma nme_of_shift_witness :
  value (evaluate_model_nme "cat.png" (of_reals (eye_sample 10 8))
                            (of_reals (shift 3 4 (eye_sample 10 8))) 640 480)
  = Some (Fin (R_sqrt.sqrt (3 / 640 * (3 / 640) + 4 / 480 * (4 / 480))
               / normalization_factor 640 480 (eye_sample 10 8))).
Proof.
  apply (nme_of_shift "cat.png" (eye_sample 10 8) 640 480 3 4);
    [reflexivity | lra | lra].
Defined.

Lemma pt_map (f : R * R -> R * R) (pts : list (R * R)) (i : nat) :
  (i < List.length pts)%nat -> pt (map f pts) i = f (pt pts i).
Proof.
  intros Hi. unfold pt.
  rewrite (nth_indep _ (0, 0) (f (0, 0))) by (now rewrite length_map).
  apply map_nth.
Qed.

(** ** One collapsed side *)

(** The difference of a coordinate with itself is zero, or NaN when the
    coordinate is infinite or NaN. *)
Lemma sub32_same (x : float32) :
  sub32 x x = S754_zero false \/ sub32 x x = S754_nan.
Proof.
  destruct x as [s | s | | s m e]; try destruct s; auto;
    left; unfold sub32, SFsub; rewrite Z.sub_diag; reflexivity.
Qed.

Lemma np_norm32_same (p : point32) :
  np_norm32 (vsub32 p p) = S754_zero false \/ np_norm32 (vsub32 p p) = S754_nan.
Proof.
  unfold vsub32.
  destruct (sub32_same (fst p)) as [-> | ->], (sub32_same (snd p)) as [-> | ->];
    auto.
Qed.

(** The ratio of a side whose two landmark pairs coincide is NaN. *)
Lemma ratio_same (p q : point32) :
  div32 (np_norm32 (vsub32 p p)) (np_norm32 (vsub32 q q)) = S754_nan.
Proof.
  destruct (np_norm32_same p) as [-> | ->], (np_norm32_same q) as [-> | ->];
    reflexivity.
Qed.

Lemma py_min32_nan_l (b : float32) : py_min32 S754_nan b = S754_nan.
Proof. destruct b as [s | s | | s m e]; reflexivity. Qed.

Lemma py_min32_nan_r (a : float32) : py_min32 a S754_nan = a.
Proof. reflexivity. Qed.

Lemma py_max32_nan_l (b : float32) : py_max32 S754_nan b = S754_nan.
Proof. reflexivity. Qed.

Lemma py_max32_nan_r (a : float32) : py_max32 a S754_nan = a.
Proof. destruct a as [s | s | | s m e]; reflexivity. Qed.

(** X12.  [eyes] and [muzzle] treat the two sides differently when one side
    has collapsed to a point (its ratio is NaN).  A collapsed left side
    decides alone: [eyes] returns 2 and [muzzle] 0, whatever the right side
    looks like.  A collapsed right side is ignored: the score is the ladder
    on the left ratio, as computed in single precision. *)
Theorem collapsed_side_asymmetry (landmarks : landmarks32) :
  List.length landmarks = 48%nat ->
  (pt32 landmarks 9 = pt32 landmarks 8 ->
   pt32 landmarks 10 = pt32 landmarks 11 ->
   value (eyes landmarks) = Some 2%Z)
  /\ (pt32 landmarks 5 = pt32 landmarks 4 ->
      pt32 landmarks 7 = pt32 landmarks 6 ->
      value (eyes landmarks)
      = Some (let r := div32 (np_norm32 (vsub32 (pt32 landmarks 10)
                                                (pt32 landmarks 11)))
                             (np_norm32 (vsub32 (pt32 landmarks 9)
                                                (pt32 landmarks 8))) in
              if gt32 r (of_Z 1) then (-1)%Z
              else if gt32 r lit_0_7 then 0%Z
              else if ge32 r lit_0_5 then 1%Z
              else 2%Z))
  /\ (pt32 landmarks 42 = pt32 landmarks 21 ->
      pt32 landmarks 44 = pt32 landmarks 32 ->
      value (muzzle landmarks) = Some 0%Z)
  /\ (pt32 landmarks 43 = pt32 landmarks 19 ->
      pt32 landmarks 45 = pt32 landmarks 35 ->
      value (muzzle landmarks)
      = Some (let r := div32 (np_norm32 (vsub32 (pt32 landmarks 44)
                                                (pt32 landmarks 32)))
                             (np_norm32 (vsub32 (pt32 landmarks 42)
                                                (pt32 landmarks 21))) in
              if gt32 r (of_Z 2) then 2%Z
              else if gt32 r lit_1_5 then 1%Z
              else if lt32 r lit_0_8 then (-1)%Z
              else 0%Z)).
Proof.
  intros Hlen. repeat split.
  - intros Hh Hv. rewrite (eyes_value landmarks Hlen). cbv zeta.
    rewrite Hh, Hv, ratio_same, py_min32_nan_l. reflexivity.
  - intros Hh Hv. rewrite (eyes_value landmarks Hlen). cbv zeta.
    rewrite Hh, Hv, ratio_same, py_min32_nan_r. reflexivity.
  - intros Hh Hw. rewrite (muzzle_value landmarks Hlen). cbv zeta.
    rewrite Hh, Hw, ratio_same, py_max32_nan_l. reflexivity.
  - intros Hh Hw. rewrite (muzzle_value landmarks Hlen). cbv zeta.
    rewrite Hh, Hw, ratio_same, py_max32_nan_r. reflexivity.
Qed.

(** The right eye collapsed, the left one with its corner at (20, 30) and
    its eyelid at (14, 21): the score is the one of the left ratio, which
    rounds to a number above 0.7. *)
Lemma collapsed_side_asymmetry_witness :
  value (eyes (of_ints (repeat (0, 0) 8
                        ++ [(0, 0); (20, 30); (14, 21); (0, 0)]
                        ++ repeat (0, 0) 36)%Z)) = Some 0%Z.
Proof.
  destruct (collapsed_side_asymmetry
              (of_ints (repeat (0, 0) 8
                        ++ [(0, 0); (20, 30); (14, 21); (0, 0)]
                        ++ repeat (0, 0) 36)%Z) eq_refl) as (_ & H & _).
  rewrite H by reflexivity. vm_compute. reflexivity.
Defined.

(** ** Performance categories *)

Lemma category_of (x : npfloat) :
  (Nat.b2n (x <? Fin 0.5)%np
   + Nat.b2n ((Fin 0.5 <=? x)%np && (x <? Fin 1.0)%np)
   + Nat.b2n ((Fin 1.0 <=? x)%np && (x <? Fin 2.0)%np)
   + Nat.b2n (x >=? Fin 2.0)%np)%nat
  = Nat.b2n (negb (is_nan x)).
Proof.
  destruct x as [r| | |]; try reflexivity.
  unfold NP.geb, NP.ltb, NP.leb, is_nan.
  rcases; simpl; try reflexivity; lra.
Qed.

(** X13.  The four performance categories are disjoint and cover exactly
    the entries whose NME is not NaN: the four counts add up to the number
    of such entries, so that the printed percentages add up to 100 only if
    no NME is NaN. *)
Theorem categories_partition (results : list result) :
  (List.length (excellent results) + List.length (good results)
   + List.length (fair results) + List.length (poor results))%nat
  = List.length (filter (fun r => negb (is_nan (nme r))) results)
  /\ (forall r : result,
        In r results -> nme r <> NaN ->
        (In r (excellent results) /\ ~ In r (good results)
         /\ ~ In r (fair results) /\ ~ In r (poor results))
        \/ (~ In r (excellent results) /\ In r (good results)
            /\ ~ In r (fair results) /\ ~ In r (poor results))
        \/ (~ In r (excellent results) /\ ~ In r (good results)
            /\ In r (fair results) /\ ~ In r (poor results))
        \/ (~ In r (excellent results) /\ ~ In r (good results)
            /\ ~ In r (fair results) /\ In r (poor results)))
  /\ (forall r : result,
        nme r = NaN ->
        ~ In r (excellent results) /\ ~ In r (good results)
        /\ ~ In r (fair results) /\ ~ In r (poor results)).
Proof.
  split; [|split].
  - unfold excellent, good, fair, poor.
    induction results as [|r results IH]; [reflexivity|].
    cbn [filter]. pose proof (category_of (nme r)) as Hc.
    destruct (nme r <? Fin 0.5)%np,
             ((Fin 0.5 <=? nme r)%np && (nme r <? Fin 1.0)%np),
             ((Fin 1.0 <=? nme r)%np && (nme r <? Fin 2.0)%np),
             (nme r >=? Fin 2.0)%np,
             (negb (is_nan (nme r)));
      cbn [Nat.b2n] in Hc; cbn [List.length]; lia.
  - intros r Hin Hnan. unfold excellent, good, fair, poor.
    rewrite !filter_In.
    pose proof (category_of (nme r)) as Hc.
    assert (Hn : negb (is_nan (nme r)) = true)
      by (destruct (nme r); try reflexivity; contradiction).
    rewrite Hn in Hc.
    destruct (nme r <? Fin 0.5)%np,
             ((Fin 0.5 <=? nme r)%np && (nme r <? Fin 1.0)%np),
             ((Fin 1.0 <=? nme r)%np && (nme r <? Fin 2.0)%np),
             (nme r >=? Fin 2.0)%np;
      cbn [Nat.b2n] in Hc; try lia; intuition discriminate.
  - intros r Hnan. unfold excellent, good, fair, poor.
    rewrite !filter_In, Hnan. cbn. intuition discriminate.
Qed.

(** ** The evaluation loop *)

Lemma value_bind {A B : Type} (m : M A) (k : A -> M B) (a : A) :
  value m = Some a -> value (bind m k) = value (k a).
Proof.
  unfold value, bind. destruct m as [[a' out]|]; simpl; [|discriminate].
  intros [= ->]. destruct (k a) as [[b out2]|]; reflexivity.
Qed.

Lemma predict_landmarks_fin (rs : list R) (image_path : string) (w h : R)
    (save_vis : bool) :
  List.length rs = 96%nat ->
  value (predict_landmarks (map Fin rs) image_path (w, h) save_vis)
  = Some (of_reals (denormalized w h rs), of_reals (pair_upR rs)).
Proof.
  intros Hlen.
  rewrite predict_landmarks_value, length_map, Hlen, Nat.eqb_refl.
  rewrite pair_up_map_Fin. cbn [fst snd]. now rewrite mul_columns_fin.
Qed.

Lemma denormalized_length (w h : R) (rs : list R) :
  List.length rs = 96%nat -> List.length (denormalized w h rs) = 48%nat.
Proof.
  intros Hlen. unfold denormalized. rewrite length_map.
  now apply pair_upR_length.
Qed.

Lemma evaluate_loop_value (d : disk) (test_data_dir : string)
    (facts : string -> image_facts) (image_files : list string) (a : R) :
  Forall (on_disk d test_data_dir facts) image_files ->
  value (evaluate_loop d (path_join test_data_dir "images")
                       (path_join test_data_dir "labels") image_files (Fin a))
  = Some (Fin (a + sumR (map (image_nme facts) image_files))).
Proof.
  intros Hall. revert a.
  induction Hall as [|f files Hf _ IH]; intros a.
  - simpl. do 2 f_equal. ring.
  - destruct Hf as (Hl & Ho & Hn & Hgt & Hrs & Hw & Hh).
    cbn [evaluate_loop]. cbv zeta.
    rewrite Hl, Ho, Hn. cbn [lift]. rewrite !bind_ret_l.
    pose proof (predict_landmarks_fin (fact_outputs (facts f))
                  (path_join (path_join test_data_dir "images") f)
                  (fact_width (facts f)) (fact_height (facts f)) true Hrs)
      as Hp.
    rewrite (value_bind _ _ _ Hp).
    rewrite bind_ret_l. cbn [fst snd].
    pose proof (evaluate_model_nme_value f _ _ Hw Hh _ _ Hgt
                  (denormalized_length (fact_width (facts f))
                     (fact_height (facts f)) _ Hrs)) as Hv.
    rewrite (value_bind _ _ _ Hv). cbn [NP.add].
    rewrite IH. do 2 f_equal.
    cbn [map sumR fold_right]. fold (sumR (map (image_nme facts) files)).
    unfold image_nme, nme_spec, per_landmark_errors. rewrite meanR_div. ring.
Qed.

(** X14.  [evaluate_model] raises when no file is selected (the average
    divides by the number of files).  Otherwise, when each selected file
    has a 48-point label, an image of positive size and 96 network outputs,
    it returns the arithmetic mean of the NMEs of the selected files, which
    are the first [num_samples] accepted names in sorted order. *)
Theorem evaluate_model_average (d : disk) (test_data_dir : string)
    (num_samples : Z) (facts : string -> image_facts) :
  (selected_files d num_samples = [] ->
   evaluate_model d test_data_dir num_samples = None)
  /\ (selected_files d num_samples <> [] ->
      Forall (on_disk d test_data_dir facts) (selected_files d num_samples) ->
      value (evaluate_model d test_data_dir num_samples)
      = Some (Fin (meanR (map (image_nme facts)
                              (selected_files d num_samples))))).
Proof.
  unfold evaluate_model. cbv zeta. split.
  - intros ->. reflexivity.
  - intros Hne Hall.
    rewrite (value_bind _ _ _ (evaluate_loop_value d test_data_dir facts _ 0 Hall)).
    destruct (selected_files d num_samples) as [|f files] eqn:E;
      [contradiction|].
    rewrite div_fin by (apply not_0_INR; discriminate).
    rewrite value_print, value_ret. unfold meanR.
    rewrite length_map, Rplus_0_l. reflexivity.
Qed.

Lemma sample_disk_selected :
  selected_files sample_disk 10 = ["a.png"; "b.png"]%string.
Proof. reflexivity. Qed.

Lemma evaluate_model_average_witness :
  value (evaluate_model sample_disk "data" 10)
  = Some (Fin (meanR (map (image_nme sample_facts) ["a.png"; "b.png"]%string))).
Proof.
  rewrite <- sample_disk_selected.
  apply (evaluate_model_average sample_disk "data" 10 sample_facts).
  - rewrite sample_disk_selected. discriminate.
  - rewrite sample_disk_selected.
    repeat constructor; try reflexivity; simpl; try lra;
      rewrite repeat_length; reflexivity.
Defined.

(** ** The NME logged while training *)

Lemma chunks_fuel_concat (rows : list (list npfloat)) (fuel : nat) :
  Forall (fun r => List.length r = 96%nat) rows ->
  (List.length rows <= fuel)%nat ->
  chunks_fuel fuel 96 (List.concat rows) = rows.
Proof.
  intros Hall. revert fuel.
  induction Hall as [|r rows Hr _ IH]; intros fuel Hfuel.
  - destruct fuel; reflexivity.
  - destruct fuel as [|fuel]; [simpl in Hfuel; lia|].
    cbn [List.concat chunks_fuel].
    destruct (r ++ List.concat rows) as [|x l] eqn:E.
    + destruct r; [discriminate Hr | discriminate E].
    + rewrite <- E, firstn_app, skipn_app, Hr, Nat.sub_diag.
      rewrite firstn_O, skipn_O, app_nil_r.
      rewrite firstn_all2, skipn_all2 by lia.
      cbn [app]. rewrite IH by (simpl in Hfuel; lia). reflexivity.
Qed.

Lemma concat_rows_length (rows : list (list npfloat)) :
  Forall (fun r => List.length r = 96%nat) rows ->
  List.length (List.concat rows) = (96 * List.length rows)%nat.
Proof.
  induction 1 as [|r rows Hr _ IH]; [reflexivity|].
  cbn [List.concat List.length]. rewrite length_app, Hr, IH. lia.
Qed.

Lemma view_48_2_rows (rows : list (list npfloat)) :
  Forall (fun r => List.length r = 96%nat) rows ->
  view_48_2 rows = ret (map pair_up rows).
Proof.
  intros Hall. unfold view_48_2. cbv zeta.
  pose proof (concat_rows_length rows Hall) as Hlen.
  rewrite chunks_fuel_concat by (assumption || lia).
  assert (Hmod : (List.length (List.concat rows) mod 96 = 0)%nat).
  { rewrite Hlen, Nat.mul_comm. apply Nat.Div0.mod_mul. }
  rewrite Hmod. reflexivity.
Qed.

Lemma broadcast2_same {A B C D : Type} (f : B -> C -> D)
    (g : A -> B) (k : A -> C) (l : list A) :
  broadcast2 f (map g l) (map k l) = ret (map (fun x => f (g x) (k x)) l).
Proof.
  unfold broadcast2. rewrite !length_map, Nat.eqb_refl. f_equal.
  induction l as [|x l IH]; [reflexivity|]. simpl. now rewrite IH.
Qed.

Lemma map_ext_Forall {A B : Type} (f g : A -> B) (l : list A) :
  Forall (fun x => f x = g x) l -> map f l = map g l.
Proof. induction 1 as [|x l Hx _ IH]; simpl; congruence. Qed.

Lemma clamp_min_fin (m x : R) :
  clamp_min (Fin m) (Fin x) = Fin (Rmax x m).
Proof.
  unfold clamp_min, NP.ltb, Rmax. rcases; destruct (Rle_dec x m); f_equal; lra.
Qed.

Lemma row_of_reals (pts : list (R * R)) (i : nat) :
  (i < List.length pts)%nat -> row (of_reals pts) i = fin_point (pt pts i).
Proof.
  intros Hi. unfold row, of_reals, pt.
  rewrite (nth_indep _ (NaN, NaN) (fin_point (0, 0)))
    by (now rewrite length_map).
  apply (map_nth fin_point).
Qed.

Lemma getitem_target_fin (gt : list (R * R)) (w h : R) :
  0 < w -> 0 < h ->
  getitem_target (of_reals gt) (w, h) true
  = flatten (of_reals (map (normalize w h) gt)).
Proof.
  intros Hw Hh. unfold getitem_target. cbn [fst snd].
  now rewrite (normalize_columns w h Hw Hh).
Qed.

Lemma getitem_target_length (gt : list (R * R)) (w h : R) :
  0 < w -> 0 < h -> List.length gt = 48%nat ->
  List.length (getitem_target (of_reals gt) (w, h) true) = 96%nat.
Proof.
  intros Hw Hh Hlen. rewrite getitem_target_fin, flatten_length by assumption.
  unfold of_reals. now rewrite !length_map, Hlen.
Qed.

(** Normalized distances, seen from the normalized prediction. *)
Lemma point_distances_denormalized (w h : R) (a b : list (R * R)) :
  0 < w -> 0 < h ->
  point_distances w h (map (fun p => (fst p * w, snd p * h)) a) b
  = map (fun pg => normR (vdiff (fst pg) (snd pg)))
        (combine a (map (normalize w h) b)).
Proof.
  intros Hw Hh. unfold point_distances. revert b.
  induction a as [|p a IH]; intros [|g b]; try reflexivity.
  cbn [map combine]. rewrite IH. f_equal. cbn [fst snd].
  change (normR (vdiff p (normalize w h g))) with (dist p (normalize w h g)).
  f_equal. unfold normalize; destruct p as [x y]; cbn [fst snd].
  f_equal; field; lra.
Qed.

Lemma sample_nme (f : image_facts) :
  well_formed_facts f ->
  let target := getitem_target (of_reals (fact_gt f))
                               (fact_width f, fact_height f) true in
  (np_mean (norm_axis1 (zip_sub (pair_up (map Fin (fact_outputs f)))
                                (pair_up target)))
   / clamp_min (Fin 1e-5)
               (np_norm (vsub (row (pair_up target) 8)
                              (row (pair_up target) 11))))%np
  = Fin (facts_nme f).
Proof.
  intros (Hgt & Hrs & Hw & Hh) target. unfold target.
  rewrite getitem_target_fin, pair_up_flatten, pair_up_map_Fin by assumption.
  rewrite !row_of_reals by (rewrite length_map, Hgt; lia).
  rewrite !pt_map_normalize by (rewrite Hgt; lia).
  rewrite np_norm_vsub_fin, clamp_min_fin.
  rewrite zip_sub_of_reals, norm_axis1_of_reals, map_map.
  rewrite <- (map_map (fun pg => normR (vdiff (fst pg) (snd pg))) Fin).
  rewrite <- (point_distances_denormalized _ _ _ _ Hw Hh).
  fold (denormalized (fact_width f) (fact_height f) (fact_outputs f)).
  fold (normalization_factor (fact_width f) (fact_height f) (fact_gt f)).
  pose proof (normalization_factor_pos (fact_width f) (fact_height f)
                (fact_gt f)) as HF.
  rewrite np_mean_fin.
  - rewrite div_fin by lra. unfold facts_nme, nme_spec, per_landmark_errors.
    now rewrite meanR_div.
  - intros E. apply (f_equal (@List.length R)) in E.
    rewrite (point_distances_length _ _ _ _ Hgt
               (denormalized_length _ _ _ Hrs)) in E.
    discriminate E.
Qed.

Lemma nme_per_sample_value (facts : list image_facts) :
  Forall well_formed_facts facts ->
  nme_per_sample (batch_of facts) = ret (map (fun f => Fin (facts_nme f)) facts).
Proof.
  intros Hall. unfold nme_per_sample, batch_of.
  cbn [batch_predictions batch_landmarks].
  rewrite view_48_2_rows, bind_ret_l.
  2:{ apply Forall_map. eapply Forall_impl; [|exact Hall].
      intros f (_ & Hrs & _). now rewrite length_map. }
  rewrite view_48_2_rows, bind_ret_l.
  2:{ apply Forall_map. eapply Forall_impl; [|exact Hall].
      intros f (Hgt & _ & Hw & Hh). now apply getitem_target_length. }
  cbv zeta. rewrite !map_map.
  rewrite broadcast2_same, bind_ret_l. rewrite !map_map.
  rewrite broadcast2_same. f_equal.
  apply map_ext_Forall. eapply Forall_impl; [|exact Hall].
  intros f Hf. apply (sample_nme f Hf).
Qed.

Lemma validate_loop_value (criterion : batch -> npfloat)
    (batches : list (list image_facts)) (loss : npfloat) (a : R) :
  Forall (fun fs => fs <> [] /\ Forall well_formed_facts fs) batches ->
  exists loss' : npfloat,
    value (validate_loop criterion (map batch_of batches) loss (Fin a))
    = Some (loss',
            Fin (a + sumR (map (fun fs => meanR (map facts_nme fs)) batches))).
Proof.
  intros Hall. revert loss a.
  induction Hall as [|fs batches [Hne Hwf] _ IH]; intros loss a.
  - exists loss. simpl. do 3 f_equal. ring.
  - cbn [map validate_loop]. cbv zeta.
    rewrite (nme_per_sample_value fs Hwf), bind_ret_l.
    rewrite <- (map_map facts_nme Fin), np_mean_fin
      by (destruct fs; [contradiction | discriminate]).
    cbn [NP.add].
    destruct (IH (loss + criterion (batch_of fs))%np
                 (a + meanR (map facts_nme fs))) as [loss' Hl].
    exists loss'. rewrite Hl. do 3 f_equal.
    cbn [sumR fold_right].
    fold (sumR (map (fun fs => meanR (map facts_nme fs)) batches)). ring.
Qed.

Lemma sumR_app (a b : list R) : sumR (a ++ b) = sumR a + sumR b.
Proof. induction a as [|x a IH]; simpl; [ring | rewrite IH; ring]. Qed.

(** With batches of one size the mean of the batch means is the mean of
    all samples. *)
Lemma mean_of_equal_batches (size : nat) (batches : list (list R)) :
  (0 < size)%nat -> batches <> [] ->
  Forall (fun b => List.length b = size) batches ->
  meanR (map meanR batches) = meanR (List.concat batches).
Proof.
  intros Hsize Hne Hall.
  assert (Hs : sumR (map meanR batches)
               = sumR (List.concat batches) / INR size
               /\ List.length (List.concat batches)
                  = (size * List.length batches)%nat).
  { clear Hne. induction Hall as [|b batches Hb _ [IH1 IH2]].
    - simpl. split; [unfold Rdiv; ring | lia].
    - cbn [map sumR fold_right List.concat]. fold (sumR (map meanR batches)).
      rewrite IH1, sumR_app, length_app, IH2, Hb. cbn [List.length].
      split; [|lia].
      unfold meanR. rewrite Hb. unfold Rdiv. ring. }
  destruct Hs as [Hs Hl]. unfold meanR at 1 3.
  rewrite Hs, Hl, length_map, mult_INR.
  assert (INR size <> 0) by (apply not_0_INR; lia).
  assert (INR (List.length batches) <> 0)
    by (apply not_0_INR; destruct batches; [contradiction | discriminate]).
  field. now split.
Qed.

(** X16.  [validate] raises on an empty loader.  On batches of well-formed
    samples the NME it returns is the mean, over the batches, of the
    per-batch mean NME; it is the mean NME over all samples when all
    batches have the same size. *)
Theorem validate_average (criterion : batch -> npfloat)
    (batches : list (list image_facts)) :
  validate criterion [] = None
  /\ (batches <> [] ->
      Forall (fun fs => fs <> [] /\ Forall well_formed_facts fs) batches ->
      exists avg_loss : npfloat,
        value (validate criterion (map batch_of batches))
        = Some (avg_loss,
                Fin (meanR (map (fun fs => meanR (map facts_nme fs)) batches)))
        /\ (forall size : nat,
              (0 < size)%nat ->
              Forall (fun fs => List.length fs = size) batches ->
              meanR (map (fun fs => meanR (map facts_nme fs)) batches)
              = meanR (map facts_nme (List.concat batches)))).
Proof.
  split; [reflexivity|]. intros Hne Hall.
  destruct (validate_loop_value criterion batches (Fin 0) 0 Hall)
    as [loss Hl].
  exists (loss / Fin (INR (List.length (map batch_of batches))))%np.
  split.
  - unfold validate. rewrite (value_bind _ _ _ Hl).
    destruct batches as [|fs batches]; [contradiction|].
    cbn [map]. cbv zeta. cbn [fst snd].
    rewrite (div_fin _ (INR _)) by (apply not_0_INR; discriminate).
    rewrite value_ret, Rplus_0_l.
    apply (f_equal Some). apply f_equal. apply f_equal.
    unfold meanR. cbn [map List.length]. now rewrite !length_map.
  - intros size Hsize Hsame.
    rewrite concat_map, <- (map_map (map facts_nme) meanR).
    apply (mean_of_equal_batches size).
    + assumption.
    + destruct batches; [contradiction | discriminate].
    + apply Forall_map. eapply Forall_impl; [|exact Hsame].
      intros fs Hfs. now rewrite length_map.
Qed.

Lemma validate_average_witness :
  exists avg_loss : npfloat,
    value (validate (fun _ => Fin 0)
                    (map batch_of [[sample_facts "a.png"; sample_facts "b.png"];
                                   [sample_facts "c.png"]]))
    = Some (avg_loss,
            Fin (meanR (map (fun fs => meanR (map facts_nme fs))
                            [[sample_facts "a.png"; sample_facts "b.png"];
                             [sample_facts "c.png"]]))).
Proof.
  destruct (validate_average (fun _ => Fin 0)
              [[sample_facts "a.png"; sample_facts "b.png"];
               [sample_facts "c.png"]]) as [_ H].
  destruct H as (avg_loss & Hv & _).
  - discriminate.
  - repeat constructor; try discriminate; simpl; try lra;
      rewrite repeat_length; reflexivity.
  - now exists avg_loss.
Defined.

(** ** The selection of the files to evaluate *)

Lemma insert_str_perm (x : string) (l : list string) :
  Permutation (x :: l) (insert_str x l).
Proof.
  induction l as [|y l IH]; simpl; [reflexivity|].
  destruct (String.leb x y); [reflexivity|].
  rewrite perm_swap. now constructor.
Qed.

Lemma py_sorted_perm (l : list string) : Permutation l (py_sorted l).
Proof.
  induction l as [|x l IH]; simpl; [constructor|].
  rewrite <- insert_str_perm. now constructor.
Qed.

Lemma insert_str_sorted (x : string) (l : list string) :
  Sorted str_le l -> Sorted str_le (insert_str x l).
Proof.
  induction 1 as [|y l Hs IH Hd]; simpl; [repeat constructor|].
  destruct (String.leb x y) eqn:E.
  - constructor; [now constructor | now constructor].
  - constructor; [exact IH|].
    assert (Hyx : str_le y x)
      by (destruct (String.leb_total x y) as [H | H]; [congruence | exact H]).
    destruct l as [|z l]; simpl; [now constructor|].
    destruct (String.leb x z); constructor; [exact Hyx|].
    now inversion Hd.
Qed.

Lemma py_sorted_sorted (l : list string) : Sorted str_le (py_sorted l).
Proof.
  induction l as [|x l IH]; simpl; [constructor | now apply insert_str_sorted].
Qed.

Lemma firstn_sorted {A : Type} (R : A -> A -> Prop) (n : nat) (l : list A) :
  Sorted R l -> Sorted R (firstn n l).
Proof.
  intros Hs. revert n. induction Hs as [|x l Hs IH Hd]; intros n.
  - destruct n; constructor.
  - destruct n as [|n]; [constructor|]. simpl. constructor; [apply IH|].
    destruct l as [|y l]; [destruct n; constructor|].
    destruct n; simpl; constructor. now inversion Hd.
Qed.

Lemma firstn_incl {A : Type} (n : nat) (l : list A) (x : A) :
  In x (firstn n l) -> In x l.
Proof.
  revert n. induction l as [|y l IH]; intros [|n]; simpl; try tauto.
  intros [H | H]; [now left | right; now apply (IH n)].
Qed.

Lemma slice_to_prefix {A : Type} (l : list A) (k : Z) :
  exists n, slice_to l k = firstn n l.
Proof. unfold slice_to. destruct (0 <=? k)%Z; eauto. Qed.

(** X17.  The files [evaluate_model] works on are accepted names of the
    image directory, in ascending order; with a non-negative
    [num_samples] there are at most that many, and when [num_samples] is
    at least the number of accepted names every accepted name is among
    them. *)
Theorem selected_files_sound (d : disk) (num_samples : Z) :
  Forall (fun f => In f (listdir d) /\ evaluate_accepts f = true)
         (selected_files d num_samples)
  /\ Sorted str_le (selected_files d num_samples)
  /\ ((0 <= num_samples)%Z ->
      (List.length (selected_files d num_samples) <= Z.to_nat num_samples)%nat)
  /\ ((Z.of_nat (List.length (filter evaluate_accepts (listdir d)))
       <= num_samples)%Z ->
      forall f, In f (listdir d) -> evaluate_accepts f = true ->
                In f (selected_files d num_samples)).
Proof.
  unfold selected_files.
  set (acc := filter evaluate_accepts (listdir d)).
  destruct (slice_to_prefix (py_sorted acc) num_samples) as [n Hn].
  split; [|split; [|split]].
  - rewrite Hn. apply Forall_forall. intros f Hf.
    apply firstn_incl in Hf.
    apply (Permutation_in _ (Permutation_sym (py_sorted_perm acc))) in Hf.
    unfold acc in Hf. now apply filter_In in Hf.
  - rewrite Hn. apply firstn_sorted, py_sorted_sorted.
  - intros Hk. unfold slice_to.
    apply Z.leb_le in Hk. rewrite Hk. apply firstn_le_length.
  - intros Hk f Hin Hacc. unfold slice_to.
    assert (H0 : (0 <=? num_samples)%Z = true) by (apply Z.leb_le; lia).
    rewrite H0, firstn_all2.
    + apply (Permutation_in _ (py_sorted_perm acc)).
      unfold acc. now apply filter_In.
    + rewrite <- (Permutation_length (py_sorted_perm acc)). fold acc in Hk. lia.
Qed.

(** X18.  On a non-empty batch of finite NME values the quartiles are
    finite and Q1 <= Q3, so the threshold is at least Q3: every reported
    outlier has an NME strictly above Q3, an image with the smallest NME is
    never reported, and a batch whose NME values are all equal has no
    outlier. *)
Theorem outliers_above_third_quartile (results : list result) (xs : list R) :
  results <> [] -> map nme results = map Fin xs ->
  exists (q1 q3 : R) (flagged : list result),
    np_percentile (map nme results) 25 = Fin q1
    /\ np_percentile (map nme results) 75 = Fin q3
    /\ q1 <= q3
    /\ value (outliers results) = Some flagged
    /\ (forall (r : result) (x : R),
          In r flagged -> nme r = Fin x -> q3 < x)
    /\ (exists r : result, In r results /\ ~ In r flagged)
    /\ (forall c : R, (forall x, In x xs -> x = c) -> flagged = []).
Proof.
  intros Hne Hxs.
  assert (Hxne : xs <> []).
  { intros E. rewrite E in Hxs. destruct results; [contradiction | discriminate]. }
  set (arr := sortR xs).
  pose proof (sortR_sorted xs) as Hs. fold arr in Hs.
  pose proof (sortR_perm xs) as Hp. fold arr in Hp.
  assert (Hane : arr <> []).
  { intros E. rewrite E in Hp. apply Permutation_sym, Permutation_nil in Hp.
    contradiction. }
  assert (H1 : np_percentile (map nme results) 25 = Fin (percentileR arr 25))
    by (rewrite Hxs; apply np_percentile_fin; [assumption | lia | reflexivity]).
  assert (H3 : np_percentile (map nme results) 75 = Fin (percentileR arr 75))
    by (rewrite Hxs; apply np_percentile_fin; [assumption | lia | reflexivity]).
  pose proof (quartiles_ordered arr Hs Hane) as Hord.
  assert (Hthr : outlier_threshold results
                 = Fin (percentileR arr 75
                        + 1.5 * (percentileR arr 75 - percentileR arr 25))).
  { unfold outlier_threshold. cbv zeta. rewrite H1, H3. reflexivity. }
  exists (percentileR arr 25), (percentileR arr 75),
         (filter (fun r => (nme r >? outlier_threshold results)%np) results).
  split; [exact H1|]. split; [exact H3|]. split; [exact Hord|].
  split; [now apply outliers_value|].
  assert (Hflag : forall (r : result) (x : R),
            In r (filter (fun r => (nme r >? outlier_threshold results)%np)
                         results) ->
            nme r = Fin x -> percentileR arr 75 < x).
  { intros r x Hin Hx. apply filter_In in Hin as [_ Hgt].
    rewrite Hthr, Hx in Hgt. unfold NP.gtb in Hgt. simpl in Hgt.
    apply Rltb_true in Hgt. lra. }
  split; [exact Hflag|]. split.
  - (* an image with the smallest NME *)
    assert (Hmin : In (nth 0 arr 0) xs).
    { apply (Permutation_in _ (Permutation_sym Hp)), nth_In.
      destruct arr; [contradiction | simpl; lia]. }
    assert (Hin : In (Fin (nth 0 arr 0)) (map nme results))
      by (rewrite Hxs; now apply in_map).
    apply in_map_iff in Hin as (r & Hr & Hin).
    exists r. split; [exact Hin|]. intros Hf.
    pose proof (Hflag r _ Hf Hr) as Hlt.
    destruct (percentile_indices arr 75 Hane ltac:(lia)) as (Hlu & Hu & _).
    pose proof (percentileR_between arr 75 Hs Hane ltac:(lia)) as [Hlo _].
    assert (H0 : nth 0 arr 0
                 <= nth (Z.to_nat (75 * (Z.of_nat (List.length arr) - 1) / 100))
                        arr 0)
      by (apply sorted_nth_le; [assumption | lia | lia]).
    lra.
  - intros c Hc.
    assert (Hac : forall x, In x arr -> x = c).
    { intros x Hx. apply Hc. now apply (Permutation_in _ (Permutation_sym Hp)). }
    pose proof (percentileR_of_constant arr 75 c Hac Hane ltac:(lia)) as E3.
    destruct (filter (fun r => (nme r >? outlier_threshold results)%np) results)
      as [|r l] eqn:Ef; [reflexivity|].
    assert (Hin : In r (r :: l)) by now left.
    assert (Hr : In (nme r) (map nme results)).
    { apply in_map. rewrite <- Ef in Hin. now apply filter_In in Hin. }
    rewrite Hxs in Hr. apply in_map_iff in Hr as (x & Hx & Hxin).
    pose proof (Hflag r x Hin (eq_sym Hx)) as Hlt.
    rewrite E3, (Hc x Hxin) in Hlt. lra.
Qed.

Lemma outliers_above_third_quartile_witness :
  exists (q1 q3 : R) (flagged : list result),
    np_percentile (map nme sample_batch) 25 = Fin q1
    /\ np_percentile (map nme sample_batch) 75 = Fin q3
    /\ q1 <= q3
    /\ value (outliers sample_batch) = Some flagged
    /\ (forall (r : result) (x : R),
          In r flagged -> nme r = Fin x -> q3 < x)
    /\ (exists r : result, In r sample_batch /\ ~ In r flagged)
    /\ (forall c : R,
          (forall x, In x [0.1; 0.2; 0.2; 0.3; 5.0] -> x = c) -> flagged = []).
Proof.
  apply (outliers_above_third_quartile sample_batch [0.1; 0.2; 0.2; 0.3; 5.0]);
    [discriminate | reflexivity].
Defined.

(** ** The NME decouples the two axes *)

Lemma normalize_stretch (sx sy w h : R) (p : R * R) :
  sx <> 0 -> sy <> 0 -> w <> 0 -> h <> 0 ->
  normalize (sx * w) (sy * h) (sx * fst p, sy * snd p) = normalize w h p.
Proof.
  intros Hx Hy Hw Hh. unfold normalize; simpl. f_equal; field; tauto.
Qed.

Lemma point_distances_stretch (sx sy w h : R) (pred gt : list (R * R)) :
  sx <> 0 -> sy <> 0 -> w <> 0 -> h <> 0 ->
  point_distances (sx * w) (sy * h) (stretch sx sy pred) (stretch sx sy gt)
  = point_distances w h pred gt.
Proof.
  intros Hx Hy Hw Hh. unfold point_distances, stretch.
  rewrite combine_map_both, map_map. apply map_ext. intros [p g]; simpl.
  now rewrite !normalize_stretch.
Qed.

Lemma normalization_factor_stretch (sx sy w h : R) (gt : list (R * R)) :
  (11 < List.length gt)%nat -> sx <> 0 -> sy <> 0 -> w <> 0 -> h <> 0 ->
  normalization_factor (sx * w) (sy * h) (stretch sx sy gt)
  = normalization_factor w h gt.
Proof.
  intros Hlen Hx Hy Hw Hh. unfold normalization_factor, stretch.
  rewrite !(pt_map (fun p => (sx * fst p, sy * snd p))) by lia.
  now rewrite !normalize_stretch.
Qed.

(** X19.  The NME of [evaluate_model] is unchanged when the image and both
    landmark sets are stretched along x by one positive factor and along y
    by another: the metric does not see the aspect ratio. *)
Theorem nme_stretch_invariant (img_file : string) (gt pred : list (R * R))
    (w h sx sy : R) :
  List.length gt = 48%nat -> List.length pred = 48%nat ->
  0 < w -> 0 < h -> 0 < sx -> 0 < sy ->
  exists x : R,
    value (evaluate_model_nme img_file (of_reals gt) (of_reals pred) w h)
    = Some (Fin x)
    /\ value (evaluate_model_nme img_file (of_reals (stretch sx sy gt))
                                 (of_reals (stretch sx sy pred))
                                 (sx * w) (sy * h))
       = Some (Fin x).
Proof.
  intros Hgt Hpred Hw Hh Hx Hy.
  eexists. split; [now apply evaluate_model_nme_value|].
  rewrite evaluate_model_nme_value;
    try (unfold stretch; rewrite length_map; assumption);
    try (apply Rmult_lt_0_compat; assumption).
  rewrite point_distances_stretch, normalization_factor_stretch
    by (try lra; rewrite Hgt; lia).
  reflexivity.
Qed.

Lemma nme_stretch_invariant_witness :
  exists x : R,
    value (evaluate_model_nme "cat.png" (of_reals (eye_sample 10 8))
                              (of_reals (eye_sample 10 7)) 640 480)
    = Some (Fin x)
    /\ value (evaluate_model_nme "cat.png"
                (of_reals (stretch 2 3 (eye_sample 10 8)))
                (of_reals (stretch 2 3 (eye_sample 10 7)))
                (2 * 640) (3 * 480))
       = Some (Fin x).
Proof.
  apply (nme_stretch_invariant "cat.png" (eye_sample 10 8) (eye_sample 10 7)
           640 480 2 3); [reflexivity | reflexivity | lra | lra | lra | lra].
Defined.

